(** * py-multiaddr: the p2p codec and the transform engine

    A shallow embedding of [multiaddr/codecs/p2p.py] together with the
    library primitives it calls ([varint.encode], [base58.b58decode],
    [base58.b58encode]), followed by the parts of the package that the
    test-suite exercises ([multiaddr.protocols], [multiaddr.transforms],
    the [ip4], [uint16be] and [cid] codecs).

    Conventions.
    - Python [bytes] is [list byte]; a Python [int] that is never negative
      is [N]; a Python [str] is [string], each character standing for the
      code point of the same number (code points above 255 are outside the
      model).
    - A raised exception is the [Err] case of [result]; [try]/[except]
      becomes a match on it. *)

From Stdlib Require Import NArith ZArith List String Ascii Bool Arith Lia.
From Stdlib Require Import Strings.Byte DecimalString.
Import ListNotations.

Local Open Scope string_scope.
Local Open Scope N_scope.
Local Open Scope list_scope.

(** ** Exceptions *)

Inductive exn : Type :=
| ValueError (msg : string)
| UnicodeError (msg : string)
| OverflowError (msg : string)
| ImportError (msg : string)
| ParseError (msg : string)
| ProtocolNotFoundError (msg : string)
| LockedRegistryError (msg : string)
| DuplicateProtocolError (msg : string)
| StringParseError (msg : string)
| BinaryParseError (msg : string).

Inductive result (A : Type) : Type :=
| Ok (a : A)
| Err (e : exn).

Arguments Ok {A} a.
Arguments Err {A} e.

Definition bind {A B : Type} (r : result A) (k : A -> result B) : result B :=
  match r with
  | Ok a => k a
  | Err e => Err e
  end.

Notation "'let*' x ':=' r 'in' k" := (bind r (fun x => k))
  (at level 10, x pattern, r at level 100, k at level 200).

Definition is_ok {A : Type} (r : result A) : bool :=
  match r with Ok _ => true | Err _ => false end.

(** The message carried by an exception ([str(exc)]). *)
Definition exn_msg (e : exn) : string :=
  match e with
  | ValueError m | UnicodeError m | OverflowError m | ImportError m
  | ParseError m
  | ProtocolNotFoundError m | LockedRegistryError m
  | DuplicateProtocolError m | StringParseError m | BinaryParseError m => m
  end.

(** ** Bytes *)

(** [bytes([n])] for [n] below 256; only ever applied to such [n]. *)
Definition byte_of_N (n : N) : byte :=
  match Byte.of_N n with
  | Some b => b
  | None => x00
  end.

Definition len {A : Type} (l : list A) : N := N.of_nat (List.length l).

(** * The [varint] package *)

Module Varint.

(** [varint.encode]:
<<
    buf = b''
    while True:
        towrite = number & 0x7f
        number >>= 7
        if number:
            buf += _byte(towrite | 0x80)
        else:
            buf += _byte(towrite)
            break
    return buf
>>
    The loop runs once per group of seven bits; [fuel] bounds the number of
    further iterations. *)
Fixpoint encode_loop (fuel : nat) (number : N) : list byte :=
  let towrite := N.land number 0x7f in
  let number := N.shiftr number 7 in
  if negb (number =? 0) then
    match fuel with
    | O => [byte_of_N (N.lor towrite 0x80)]
    | S fuel' => byte_of_N (N.lor towrite 0x80) :: encode_loop fuel' number
    end
  else [byte_of_N towrite].

Definition encode (number : N) : list byte :=
  encode_loop (N.to_nat (N.log2 number)) number.

End Varint.

(** Modelled from the spec: the loop of [read_varint_code] (below), over
    the bytes left, the value [x] read so far, the shift [s] of the next
    group and the number [i] of bytes read. *)
Fixpoint read_varint_loop (buf : list byte) (x s : N) (i : nat)
  : result (N * nat) :=
  match buf with
  | [] => Err (ParseError "truncated varint")
  | b :: buf' =>
      let b := Byte.to_N b in
      if b <? 0x80 then Ok (N.lor x (N.shiftl b s), S i)
      else read_varint_loop buf' (N.lor x (N.shiftl (N.land b 0x7f) s)) (s + 7) (S i)
  end.

(** Modelled from the spec: [multiaddr.protocols.read_varint_code], which
    [p2p.py] imports but which is not among the sources.  Section 4.2:
    "decode(bytes) -> (value, bytes_consumed): fails with ParseError on
    truncated or malformed input (continuation bit set on the final
    available byte)", for the "standard little-endian base-128
    variable-length encoding". *)
Definition read_varint_code (buf : list byte) : result (N * nat) :=
  read_varint_loop buf 0 0 0%nat.

(** * Python built-ins used by the libraries *)

Module Py.

(** [str.isspace] on one character, for the code points of the model:
    TAB..CR, FS..US, SPACE, NEL and NBSP. *)
Definition str_isspace (c : byte) : bool :=
  let n := Byte.to_N c in
  ((9 <=? n) && (n <=? 13)) || ((28 <=? n) && (n <=? 32))
  || (n =? 0x85) || (n =? 0xa0).

(** [bytes.isspace] on one byte: the ASCII whitespace [b' \t\n\r\x0b\f']. *)
Definition bytes_isspace (c : byte) : bool :=
  let n := Byte.to_N c in
  ((9 <=? n) && (n <=? 13)) || (n =? 32).

(** [v.lstrip(chars)]: drop the longest prefix made of members of a set. *)
Fixpoint lstrip_by (p : byte -> bool) (v : list byte) : list byte :=
  match v with
  | [] => []
  | c :: v' => if p c then lstrip_by p v' else v
  end.

Definition rstrip_by (p : byte -> bool) (v : list byte) : list byte :=
  rev (lstrip_by p (rev v)).

Definition mem (c : byte) (chars : list byte) : bool :=
  existsb (Byte.eqb c) chars.

(** [bytes.lstrip(chars)]. *)
Definition bytes_lstrip (chars v : list byte) : list byte :=
  lstrip_by (fun c => mem c chars) v.

(** [bytes.rstrip()]. *)
Definition bytes_rstrip (v : list byte) : list byte :=
  rstrip_by bytes_isspace v.

(** [str.rstrip()]. *)
Definition str_rstrip (s : string) : string :=
  string_of_list_byte (rstrip_by str_isspace (list_byte_of_string s)).

Definition is_ascii (v : list byte) : bool :=
  forallb (fun c => Byte.to_N c <? 128) v.

(** [s.encode('ascii')]. *)
Definition str_encode_ascii (s : string) : result (list byte) :=
  let v := list_byte_of_string s in
  if is_ascii v then Ok v
  else Err (UnicodeError "'ascii' codec can't encode character").

(** [v.decode('ascii')]. *)
Definition bytes_decode_ascii (v : list byte) : result string :=
  if is_ascii v then Ok (string_of_list_byte v)
  else Err (UnicodeError "'ascii' codec can't decode byte").

(** [v[i:j]] for [0 <= i <= j]. *)
Definition slice {A : Type} (i j : nat) (v : list A) : list A :=
  firstn (j - i) (skipn i v).

(** [v * k]: [k] copies of [v] end to end. *)
Fixpoint times {A : Type} (v : list A) (k : nat) : list A :=
  match k with
  | O => []
  | S k' => v ++ times v k'
  end.

(** [int.from_bytes(v, byteorder='big')]. *)
Definition int_from_bytes (v : list byte) : N :=
  fold_left (fun acc c => acc * 256 + Byte.to_N c) v 0.

(** [n.bit_length()]. *)
Definition bit_length (n : N) : N := N.size n.

(** The [length] low-order bytes of [n], least significant first. *)
Fixpoint int_to_bytes_little (length : nat) (n : N) : list byte :=
  match length with
  | O => []
  | S length' => byte_of_N (n mod 256) :: int_to_bytes_little length' (n / 256)
  end.

(** [n.to_bytes(length, 'big')]: raises [OverflowError] when [n] does not
    fit in [length] bytes. *)
Definition int_to_bytes (n : N) (length : nat) : result (list byte) :=
  if n <? 256 ^ N.of_nat length then Ok (rev (int_to_bytes_little length n))
  else Err (OverflowError "int too big to convert").

End Py.

(** * The [base58] package (release 2.1.1; [setup.py] asks for any) *)

Module Base58.

Definition BITCOIN_ALPHABET : list byte :=
  list_byte_of_string "123456789ABCDEFGHJKLMNPQRSTUVWXYZabcdefghijkmnopqrstuvwxyz".

Definition alphabet : list byte := BITCOIN_ALPHABET.

Definition base : N := len alphabet.

(** [scrub_input]: a [str] is encoded as ASCII. *)
Definition scrub_input (v : string) : result (list byte) :=
  Py.str_encode_ascii v.

(** The loop of [b58encode_int]:
<<
    while i:
        i, idx = divmod(i, base)
        string = alphabet[idx:idx+1] + string
>>
    Each iteration at least halves [i], so [bit_length i] iterations are
    enough; [fuel] counts them. *)
Fixpoint b58encode_int_loop (fuel : nat) (i : N) (string : list byte)
  : list byte :=
  if i =? 0 then string
  else
    match fuel with
    | O => string
    | S fuel' =>
        let idx := N.to_nat (i mod base) in
        b58encode_int_loop fuel' (i / base)
          (Py.slice idx (idx + 1) alphabet ++ string)
    end.

(** [b58encode_int(i, default_one, alphabet=BITCOIN_ALPHABET)]. *)
Definition b58encode_int (i : N) (default_one : bool) : list byte :=
  if (i =? 0) && default_one then Py.slice 0 1 alphabet
  else b58encode_int_loop (N.to_nat (Py.bit_length i)) i [].

(** [b58encode(v)]. *)
Definition b58encode (v : list byte) : list byte :=
  let origlen := List.length v in
  let v := Py.bytes_lstrip [x00] v in
  let newlen := List.length v in
  let acc := Py.int_from_bytes v in
  let result := b58encode_int acc false in
  Py.times (Py.slice 0 1 alphabet) (origlen - newlen) ++ result.

(** [_get_base58_decode_map(alphabet, autofix=False)], the dictionary
    [{char: index for index, char in enumerate(alphabet)}], read at [char]:
    the position of [char] in the alphabet (no character occurs twice). *)
Fixpoint index_from (char : byte) (alphabet : list byte) (index : N)
  : option N :=
  match alphabet with
  | [] => None
  | c :: alphabet' =>
      if Byte.eqb c char then Some index
      else index_from char alphabet' (N.succ index)
  end.

Definition decode_map (char : byte) : option N :=
  index_from char alphabet 0.

(** The loop of [b58decode_int]; a [KeyError] of the dictionary becomes a
    [ValueError]. *)
Fixpoint b58decode_int_loop (v : list byte) (decimal : N) : result N :=
  match v with
  | [] => Ok decimal
  | char :: v' =>
      match decode_map char with
      | Some d => b58decode_int_loop v' (decimal * base + d)
      | None => Err (ValueError "Invalid character")
      end
  end.

(** [b58decode_int(v)] on [bytes]: the alphabet has no space, so [v] is
    stripped on the right first. *)
Definition b58decode_int (v : list byte) : result N :=
  let v := if negb (Py.mem x20 alphabet) then Py.bytes_rstrip v else v in
  b58decode_int_loop v 0.

(** [b58decode(v)] on a [str]. *)
Definition b58decode (v : string) : result (list byte) :=
  let v := Py.str_rstrip v in
  let* v := scrub_input v in
  let origlen := List.length v in
  let v := Py.bytes_lstrip (Py.slice 0 1 alphabet) v in
  let newlen := List.length v in
  let* acc := b58decode_int v in
  Py.int_to_bytes acc (origlen - newlen + N.to_nat ((Py.bit_length acc + 7) / 8)).

End Base58.

(** * [multiaddr/codecs/p2p.py] *)

(** The protocol descriptor every codec function receives: its numeric
    code, its name and the name of its codec ([None] for a protocol
    without value). *)
Record Protocol : Type := mkProtocol {
  code : N;
  name : string;
  codec : option string
}.

(** Modelled from the spec: the constant [LENGTH_PREFIXED_VAR_SIZE] that
    [p2p.py] imports from [multiaddr.codec], which is not among the
    sources; it marks the codecs whose "size is a leading varint"
    (section 3) and is told from a bit width by being negative. *)
Definition LENGTH_PREFIXED_VAR_SIZE : Z := (-1)%Z.

Module P2P.

Definition SIZE : Z := LENGTH_PREFIXED_VAR_SIZE.
Definition IS_PATH : bool := false.

(** [to_bytes(proto, string)]:
<<
    try:
        ...
        mm = base58.b58decode(string)
    except Exception as ex:
        raise ValueError("failed to parse p2p addr: %s %s" % (string, str(ex)))
    size = varint.encode(len(mm))
    if len(mm) < 5:
        raise ValueError("invalid P2P multihash: %s" % mm)
    return b''.join([size, mm])
>>
    ([six.PY2] is false: the package requires Python 3.  The second
    message is kept without the bytes it formats.) *)
Definition to_bytes (proto : Protocol) (string : string) : result (list byte) :=
  match Base58.b58decode string with
  | Err ex => Err (ValueError ("failed to parse p2p addr: " ++ string ++ " " ++ exn_msg ex))
  | Ok mm =>
      let size := Varint.encode (len mm) in
      if len mm <? 5 then Err (ValueError "invalid P2P multihash")
      else Ok (size ++ mm)
  end.

(** [to_string(proto, buf)]:
<<
    size, num_bytes_read = read_varint_code(buf)
    buf = buf[num_bytes_read:]
    if len(buf) != size:
        raise ValueError("inconsistent lengths")
    return base58.b58encode(buf).decode('ascii')
>> *)
Definition to_string (proto : Protocol) (buf : list byte) : result string :=
  let* (size, num_bytes_read) := read_varint_code buf in
  let buf := skipn num_bytes_read buf in
  if negb (len buf =? size) then Err (ValueError "inconsistent lengths")
  else Py.bytes_decode_ascii (Base58.b58encode buf).

End P2P.

(** * [multiaddr.protocols]: the registry *)

Module Protocols.

Definition P_IP4 : N := 0x04.
Definition P_TCP : N := 0x06.
Definition P_UDP : N := 0x0111.
Definition P_IP6 : N := 0x29.
Definition P_P2P : N := 0x01A5.

Definition ip4 : Protocol := mkProtocol P_IP4 "ip4" (Some "ip4").
Definition tcp : Protocol := mkProtocol P_TCP "tcp" (Some "uint16be").
Definition udp : Protocol := mkProtocol P_UDP "udp" (Some "uint16be").
Definition ip6 : Protocol := mkProtocol P_IP6 "ip6" (Some "ip6").
Definition p2p : Protocol := mkProtocol P_P2P "p2p" (Some "cid").

(** Modelled from the spec: the registry class of [multiaddr.protocols],
    which is not among the sources (section 3): "an ordered collection of
    Protocols, queryable by code or by name", "read-only by default". *)
Record Registry : Type := mkRegistry {
  locked : bool;
  protocols : list Protocol
}.

(** Modelled from the spec: [find] of the registry, by name and by code
    (section 4.1): "find(code_or_name) -> Protocol, fails with
    ProtocolNotFoundError if absent". *)
Definition find_by_name (r : Registry) (n : string) : result Protocol :=
  match find (fun p => String.eqb (name p) n) (protocols r) with
  | Some p => Ok p
  | None => Err (ProtocolNotFoundError n)
  end.

Definition find_by_code (r : Registry) (c : N) : result Protocol :=
  match find (fun p => code p =? c) (protocols r) with
  | Some p => Ok p
  | None => Err (ProtocolNotFoundError "unknown code")
  end.

(** Modelled from the spec: [copy] and [add] of the registry
    (section 4.1): "copy(unlock=true) -> mutable Registry returns an
    independent snapshot"; [add] "fails with LockedRegistryError if called
    on a locked instance, and fails with DuplicateProtocolError if the
    code or name already exists". *)
Definition copy (r : Registry) (unlock : bool) : Registry :=
  mkRegistry (if unlock then false else locked r) (protocols r).

Definition add (r : Registry) (proto : Protocol) : result Registry :=
  if locked r then Err (LockedRegistryError "registry is locked")
  else if existsb (fun p => (code p =? code proto)
                            || String.eqb (name p) (name proto)) (protocols r)
  then Err (DuplicateProtocolError (name proto))
  else Ok (mkRegistry false (protocols r ++ [proto])).

(** Modelled from the spec: the global [REGISTRY] of [multiaddr.protocols],
    restricted to the protocols of the examples of sections 6 and 8 whose
    codec is modelled below: code 4 is ip4, code 6 is tcp, and the bytes
    [91 02] of the udp segments are the varint of 273.  ([ip6] only serves
    as a protocol without key type in the tests of the cid codec.) *)
Definition REGISTRY : Registry :=
  mkRegistry true [ip4; tcp; udp; p2p].

End Protocols.

(** * [multiaddr.codecs] *)

(** The interface every codec module offers: [SIZE] in bits (negative for
    a length-prefixed value), [IS_PATH], [to_bytes] and [to_string]. *)
Record Codec : Type := mkCodec {
  SIZE : Z;
  IS_PATH : bool;
  codec_to_bytes : Protocol -> string -> result (list byte);
  codec_to_string : Protocol -> list byte -> result string
}.

(** Text helpers shared by the codecs and the engine. *)
Module Text.

(** [s.split(sep)] for a one-character separator. *)
Fixpoint split (sep : ascii) (s : string) : list string :=
  match s with
  | EmptyString => [EmptyString]
  | String c s' =>
      if Ascii.eqb c sep then EmptyString :: split sep s'
      else match split sep s' with
           | [] => [String c EmptyString]
           | w :: ws => String c w :: ws
           end
  end.

(** [sep.join(parts)]. *)
Fixpoint join (sep : string) (parts : list string) : string :=
  match parts with
  | [] => EmptyString
  | [p] => p
  | p :: ps => (p ++ sep ++ join sep ps)%string
  end.

(** A non-empty string of decimal digits, read as a number. *)
Definition parse_decimal (s : string) : option N :=
  option_map N.of_uint (NilZero.uint_of_string s).

Definition show_decimal (n : N) : string :=
  NilZero.string_of_uint (N.to_uint n).

Fixpoint traverse {A B : Type} (f : A -> option B) (l : list A)
  : option (list B) :=
  match l with
  | [] => Some []
  | a :: l' =>
      match f a, traverse f l' with
      | Some b, Some bs => Some (b :: bs)
      | _, _ => None
      end
  end.

End Text.

(** The codec of ip4, [multiaddr/codecs/ip4.py], which is not among the
    sources. *)
Module Ip4.

Definition SIZE : Z := 32%Z.
Definition IS_PATH : bool := false.

Definition octet (s : string) : option byte :=
  match Text.parse_decimal s with
  | Some n => if n <? 256 then Some (byte_of_N n) else None
  | None => None
  end.

(** Modelled from the spec: [to_bytes] and [to_string] of the ip4 codec
    (section 4.3): "fixed-size binary like IPv4", "fail on out-of-range
    octets", and [to_string] "must fail with a parse error if declared
    length and actual buffer length are inconsistent"; section 6: the four
    octets of the dotted form are stored as four raw bytes. *)
Definition to_bytes (proto : Protocol) (string : string) : result (list byte) :=
  match Text.traverse octet (Text.split "." string) with
  | Some [a; b; c; d] => Ok [a; b; c; d]
  | _ => Err (ValueError "invalid IPv4 address")
  end.

Definition to_string (proto : Protocol) (buf : list byte) : result string :=
  match buf with
  | [_; _; _; _] =>
      Ok (Text.join "." (map (fun b => Text.show_decimal (Byte.to_N b)) buf))
  | _ => Err (ValueError "invalid length (should be 4)")
  end.

Definition codec : Codec := mkCodec SIZE IS_PATH to_bytes to_string.

End Ip4.

(** The codec of the port numbers of tcp and udp, which is not among the
    sources; upstream it is [multiaddr/codecs/uint16be.py]. *)
Module Uint16be.

Definition SIZE : Z := 16%Z.
Definition IS_PATH : bool := false.

(** Modelled from the spec: [to_bytes] and [to_string] of the port codec
    (section 4.3): "port-like codecs fail on values outside the 16-bit
    unsigned range"; section 6: "2 raw bytes for the big-endian port". *)
Definition to_bytes (proto : Protocol) (string : string) : result (list byte) :=
  match Text.parse_decimal string with
  | Some n =>
      if n <? 65536 then Ok [byte_of_N (n / 256); byte_of_N (n mod 256)]
      else Err (ValueError "integer not in range(65536)")
  | None => Err (ValueError "invalid literal for int() with base 10")
  end.

Definition to_string (proto : Protocol) (buf : list byte) : result string :=
  match buf with
  | [hi; lo] => Ok (Text.show_decimal (Byte.to_N hi * 256 + Byte.to_N lo))
  | _ => Err (ValueError "invalid length (should be 2)")
  end.

Definition codec : Codec := mkCodec SIZE IS_PATH to_bytes to_string.

End Uint16be.

(** * The content-identifier collaborator *)

(** The multibase text of the external CID library: of its encodings,
    base32 is the one the tests show. *)
Module Multibase.

Definition BASE32 : list byte :=
  list_byte_of_string "abcdefghijklmnopqrstuvwxyz234567".

(** The [width] low-order bits of [n], most significant first. *)
Definition bits_of (width : nat) (n : N) : list bool :=
  map (fun i => N.testbit n (N.of_nat i)) (rev (seq 0 width)).

Definition of_bits (bits : list bool) : N :=
  fold_left (fun acc (b : bool) => 2 * acc + (if b then 1 else 0)) bits 0.

(** Cut a bit stream into groups of [width] bits; the last group may be
    shorter. *)
Fixpoint regroup (width : nat) (bits cur : list bool) : list (list bool) :=
  match bits with
  | [] => match cur with [] => [] | _ => [cur] end
  | b :: bits' =>
      let cur' := cur ++ [b] in
      if Nat.eqb (List.length cur') width then cur' :: regroup width bits' []
      else regroup width bits' cur'
  end.

Definition pad (width : nat) (g : list bool) : list bool :=
  g ++ repeat false (width - List.length g).

Definition base32_encode (v : list byte) : list byte :=
  let bits := flat_map (fun c => bits_of 8 (Byte.to_N c)) v in
  map (fun g => nth (N.to_nat (of_bits (pad 5 g))) BASE32 x00)
      (regroup 5 bits []).

Fixpoint index_of (c : byte) (l : list byte) (i : N) : option N :=
  match l with
  | [] => None
  | c' :: l' => if Byte.eqb c' c then Some i else index_of c l' (N.succ i)
  end.

Definition base32_decode (v : list byte) : result (list byte) :=
  match Text.traverse (fun c => index_of c BASE32 0) v with
  | None => Err (ValueError "invalid base32 character")
  | Some ds =>
      let bits := flat_map (bits_of 5) ds in
      Ok (map (fun g => byte_of_N (of_bits g))
            (filter (fun g => Nat.eqb (List.length g) 8) (regroup 8 bits [])))
  end.

(** Modelled from the spec: the "modern self-describing string form" of
    an identifier (section 4.3), which the external CID library renders as
    multibase base32: the letter [b], then the RFC 4648 lower-case base32
    digits of the bytes without padding.  The literal strings of the tests
    fix the encoding. *)
Definition encode (v : list byte) : string :=
  string_of_list_byte (x62 :: base32_encode v).

Definition decode (s : string) : result (list byte) :=
  match list_byte_of_string s with
  | x62 :: v => base32_decode v
  | _ => Err (ValueError "unsupported multibase prefix")
  end.

End Multibase.

(** The primitives of the external CID library. *)
Module CidLib.

Record CID : Type := mkCID {
  version : N;
  codec_tag : N;
  multihash : list byte
}.

(** Modelled from the spec: [cid_encode] and [cid_decode] (section 6):
    "cid_decode(bytes) -> {version, codec_tag, multihash}" and
    "cid_encode(version, codec_tag, multihash) -> bytes".  The binary form
    is the version, then the codec tag, then the multihash, the first two
    as varints: the vectors of the tests begin [01 72]. *)
Definition cid_encode (version codec_tag : N) (multihash : list byte)
  : list byte :=
  Varint.encode version ++ Varint.encode codec_tag ++ multihash.

Definition cid_decode (buf : list byte) : result CID :=
  let* (version, n) := read_varint_code buf in
  let buf := skipn n buf in
  let* (codec_tag, m) := read_varint_code buf in
  Ok (mkCID version codec_tag (skipn m buf)).

End CidLib.

(** The codec of the content identifiers, [multiaddr/codecs/cid.py], which
    the registry gives to the p2p protocol and which the tests reach
    through [codec_by_name("cid")]; it is not among the sources. *)
Module Cid.

Definition SIZE : Z := LENGTH_PREFIXED_VAR_SIZE.
Definition IS_PATH : bool := false.

Definition LIBP2P_KEY : N := 0x72.

(** Modelled from the spec: the key type a protocol requires of its
    identifiers, if any (section 8: under p2p the codec tag is [0x72]). *)
Definition expected_codec (proto : Protocol) : option N :=
  if String.eqb (name proto) "p2p" then Some LIBP2P_KEY else None.

(** Modelled from the spec: what tells the legacy forms from the modern
    ones, which section 9 leaves to the collaborator: a legacy string
    starts with [1] or [Qm], as the two of the tests do, and a version-1
    binary form starts with the version byte [01]. *)
Definition is_legacy_string (s : string) : bool :=
  match s with
  | String "1" _ => true
  | String "Q" (String "m" _) => true
  | _ => false
  end.

(** Modelled from the spec: the same distinction on the binary side. *)
Definition is_legacy_binary (buf : list byte) : bool :=
  match buf with
  | x01 :: _ => false
  | _ => true
  end.

Definition wrong_codec : exn :=
  ValueError "multiaddr CIDs must use the expected multicodec".

(** Modelled from the spec: [to_bytes] of the cid codec (section 4.3):
    it "must fail if the decoded multihash/CID is shorter than the minimum
    viable length (5 bytes) or has the wrong codec type when a specific key
    type is required"; "when encoding, if the input string is a legacy
    base58 multihash representation, it is normalized to a version-1
    content identifier's binary form before storage".  The tests show
    that a protocol without key type stores a legacy string as the bare
    multihash. *)
Definition to_bytes (proto : Protocol) (string : string) : result (list byte) :=
  if is_legacy_string string then
    let* mm := Base58.b58decode string in
    if len mm <? 5 then Err (ValueError "invalid multihash")
    else
      match expected_codec proto with
      | Some tag => Ok (CidLib.cid_encode 1 tag mm)
      | None => Ok mm
      end
  else
    let* buf := Multibase.decode string in
    let* parsed := CidLib.cid_decode buf in
    if len buf <? 5 then Err (ValueError "invalid CID")
    else
      match expected_codec proto with
      | Some tag =>
          if CidLib.codec_tag parsed =? tag then Ok buf else Err wrong_codec
      | None => Ok buf
      end.

(** Modelled from the spec: [to_string] of the cid codec (section 4.3):
    "when decoding, if the binary payload encodes a version-1 identifier
    whose codec tag designates a specific key type, the output string is
    rendered back in the legacy base58 form, otherwise in the modern
    self-describing string form"; section 8: the form depends on the
    protocol under which the bytes are decoded.  A bare multihash is shown
    in base58. *)
Definition to_string (proto : Protocol) (buf : list byte) : result string :=
  if is_legacy_binary buf then Py.bytes_decode_ascii (Base58.b58encode buf)
  else
    let* parsed := CidLib.cid_decode buf in
    match expected_codec proto with
    | Some tag =>
        if CidLib.codec_tag parsed =? tag
        then Py.bytes_decode_ascii (Base58.b58encode (CidLib.multihash parsed))
        else Err wrong_codec
    | None => Ok (Multibase.encode buf)
    end.

Definition codec : Codec := mkCodec SIZE IS_PATH to_bytes to_string.

End Cid.

(** Modelled from the spec: [multiaddr.codecs.codec_by_name], the
    "dynamic dispatch to codec-by-name" of section 9.  [None] names the
    codec of the marker protocols, which have no value; a name for which
    there is no codec module cannot be loaded. *)
Definition codec_by_name (name : option string) : result (option Codec) :=
  match name with
  | None => Ok None
  | Some n =>
      if String.eqb n "ip4" then Ok (Some Ip4.codec)
      else if String.eqb n "uint16be" then Ok (Some Uint16be.codec)
      else if String.eqb n "cid" then Ok (Some Cid.codec)
      else Err (ImportError ("No module named " ++ n))
  end.

(** * [multiaddr.transforms]: the transform engine *)

Module Transforms.

(** Modelled from the spec: [size_for_addr] (section 4.3, [size_for]):
    "for length-prefixed codecs, reads one varint from the cursor
    (advancing it) and returns that value; for fixed-size codecs, returns
    the protocol's declared bit width in bytes; for path-style codecs,
    signals 'consume remainder'"; section 8: "for a non-existent/None
    codec, declared size is 0 and cursor does not advance".  The result is
    the size in bytes and the number of bytes the cursor advanced. *)
Definition size_for_addr (codec : option Codec) (buf : list byte)
  : result (nat * nat) :=
  match codec with
  | None => Ok (0%nat, 0%nat)
  | Some c =>
      if IS_PATH c then Ok (List.length buf, 0%nat)
      else if (0 <=? SIZE c)%Z then Ok (Z.to_nat (SIZE c / 8), 0%nat)
      else
        let* (size, n) := read_varint_code buf in
        Ok (N.to_nat size, n)
  end.

(** Modelled from the spec: the wrapping step of section 7, "low-level
    codec failures of any kind are caught at the transform-engine boundary
    and re-raised uniformly", "preserving the original message". *)
Definition reraise {A : Type} (error : string -> exn) (r : result A) : result A :=
  match r with
  | Ok a => Ok a
  | Err e => Err (error (exn_msg e))
  end.

(** A record of the iteration (section 2): "(offset, protocol, size,
    value-bytes)". *)
Definition segment : Type := (nat * Protocol * nat * list byte)%type.

(** Modelled from the spec: the loop of [bytes_iter] (below), from the
    cursor at [offset] with [buf] left to read.  Each step consumes at
    least the byte of the code, so [fuel] may start at the length of the
    buffer. *)
Fixpoint bytes_iter_loop (fuel : nat) (registry : Protocols.Registry)
    (offset : nat) (buf : list byte) : result (list segment) :=
  match buf with
  | [] => Ok []
  | _ :: _ =>
      match fuel with
      | O => Err (BinaryParseError "no progress")
      | S fuel' =>
          let* (code, n) := reraise BinaryParseError (read_varint_code buf) in
          let* proto :=
            reraise BinaryParseError (Protocols.find_by_code registry code) in
          let* codec := reraise BinaryParseError (codec_by_name (codec proto)) in
          let buf := skipn n buf in
          let* (size, m) := reraise BinaryParseError (size_for_addr codec buf) in
          let buf := skipn m buf in
          if (List.length buf <? size)%nat
          then Err (BinaryParseError "Unexpected end of data")
          else
            let* rest :=
              bytes_iter_loop fuel' registry (offset + n + m + size)
                (skipn size buf) in
            Ok ((offset, proto, size, firstn size buf) :: rest)
      end
  end.

(** Modelled from the spec: [bytes_iter] (section 4.4, steps 1 to 4): at
    each boundary read the varint protocol code and look it up, ask the
    codec for the size of the segment, move past the prefix and the value,
    fail "if the computed segment extends past the buffer end", and repeat
    until the cursor reaches the end. *)
Definition bytes_iter (registry : Protocols.Registry) (buf : list byte)
  : result (list segment) :=
  bytes_iter_loop (List.length buf) registry 0 buf.

(** Modelled from the spec: the fragments of one segment in
    [bytes_to_string]: the name of the protocol, then the text of the
    value if the protocol has one. *)
Definition fragments (s : segment) : result (list string) :=
  let '(_, proto, size, value) := s in
  let* codec := reraise BinaryParseError (codec_by_name (codec proto)) in
  match codec with
  | None => Ok [name proto]
  | Some c =>
      if (SIZE c =? 0)%Z then Ok [name proto]
      else
        let* text := reraise BinaryParseError (codec_to_string c proto value) in
        Ok [name proto; text]
  end.

Fixpoint all_fragments (segments : list segment) : result (list string) :=
  match segments with
  | [] => Ok []
  | s :: segments' =>
      let* f := fragments s in
      let* fs := all_fragments segments' in
      Ok (f ++ fs)
  end.

(** Modelled from the spec: [bytes_to_string] (section 4.4):
    "iterate decoded segments in order, invoke the codec's to_string, join
    fragments with /, prefix with /"; section 7: any failure below is
    re-raised as [BinaryParseError]. *)
Definition bytes_to_string (registry : Protocols.Registry) (buf : list byte)
  : result string :=
  let* segments := bytes_iter registry buf in
  let* fs := all_fragments segments in
  Ok ("/" ++ Text.join "/" fs)%string.

(** Modelled from the spec: the bytes of one component in
    [string_to_bytes] (section 6): "varint(protocol_code) ||
    segment_payload", the payload being the value, behind the varint of
    its length when the codec is length-prefixed. *)
Definition component (proto : Protocol) (c : Codec) (value : string)
  : result (list byte) :=
  let* bytes := reraise StringParseError (codec_to_bytes c proto value) in
  if negb (IS_PATH c) && (SIZE c <? 0)%Z
  then Ok (Varint.encode (code proto) ++ Varint.encode (len bytes) ++ bytes)
  else Ok (Varint.encode (code proto) ++ bytes).

(** Modelled from the spec: the loop of [string_to_bytes] (below) over
    the components that remain. *)
Fixpoint string_to_bytes_loop (registry : Protocols.Registry)
    (sp : list string) : result (list byte) :=
  match sp with
  | [] => Ok []
  | element :: sp' =>
      let* proto :=
        reraise StringParseError (Protocols.find_by_name registry element) in
      let* codec := reraise StringParseError (codec_by_name (codec proto)) in
      let marker :=
        let* rest := string_to_bytes_loop registry sp' in
        Ok (Varint.encode (code proto) ++ rest) in
      match codec with
      | None => marker
      | Some c =>
          if (SIZE c =? 0)%Z then marker
          else
            match sp' with
            | [] => Err (StringParseError "Protocol requires address")
            | value :: sp'' =>
                if IS_PATH c then
                  component proto c (Text.join "/" sp')
                else
                  let* bs := component proto c value in
                  let* rest := string_to_bytes_loop registry sp'' in
                  Ok (bs ++ rest)
            end
      end
  end.

(** Modelled from the spec: [string_to_bytes] (section 4.4): "split the
    input on /, discard leading empty component from the leading slash,
    fail with StringParseError if the first character is not /; consume
    components pairwise as (protocol-name, value) except for path-style
    protocols, which consume all remaining components (rejoined with /) as
    a single value; fail with StringParseError if a component name is not
    in the registry or if a required value is missing"; section 7: any
    failure below is re-raised as [StringParseError]. *)
Definition string_to_bytes (registry : Protocols.Registry) (string : string)
  : result (list byte) :=
  match string with
  | String "/" _ =>
      string_to_bytes_loop registry (tl (Text.split "/" string))
  | _ => Err (StringParseError "Must begin with /")
  end.

End Transforms.

(** The test fixture [protocol_extension]: a copy of the registry, unlocked,
    to which the protocol [UnparsableProtocol()] is added, whose codec
    ["?"] does not exist. *)
Definition UnparsableProtocol : Protocol := mkProtocol 333 "unparsable" (Some "?").

Definition protocol_extension : result Protocols.Registry :=
  Protocols.add (Protocols.copy Protocols.REGISTRY true) UnparsableProtocol.

(** * Vectors of the tests *)

(** The address of [BYTES_MAP_STR_TEST_DATA], in both forms. *)
Definition example_string : string :=
  "/ip4/127.0.0.1/udp/1234/ip4/127.0.0.1/tcp/4321".

Definition example_bytes : list byte :=
  [x04; x7f; x00; x00; x01; x91; x02; x04; xd2;
   x04; x7f; x00; x00; x01; x06; x10; xe1].

(** The peer identifier of [test_cid_autoconvert_to_bytes] and
    [test_cid_autoconvert_to_string]. *)
Definition legacy_peer_id : string :=
  "12D3KooWPA6ax6t3jqTyGq73Zm1RmwppYqxaXzrtarfcTWGp5Wzx".

Definition modern_peer_id : string :=
  "bafzaajaiaejcbrrv5vds2whn3c464rsb5r2vpxeanneinzlijenlac77cju2pptf".

(** The identifier of [test_codec_to_bytes_value_error] and
    [test_codec_to_string_value_error] whose type is not "libp2p-key". *)
Definition dag_pb_string : string :=
  "bafyaajaiaejcbrrv5vds2whn3c464rsb5r2vpxeanneinzlijenlac77cju2pptf".

Definition dag_pb_bytes : list byte :=
  [x01; x70; x00; x24; x08; x01; x12; x20; xc6; x35; xed; x47; x2d; x58;
   xed; xd8; xb9; xee; x46; x41; xec; x75; x57; xdc; x80; x6b; x48; x86;
   xe5; x68; x49; x1a; xb0; x0b; xff; x12; x69; xa7; xbe; x65].

(** * Notions used in the statements *)

(** A list on which stripping has nothing to do. *)
Definition unstrippable (p : byte -> bool) (v : list byte) : Prop :=
  match v with
  | [] => True
  | c :: _ => p c = false
  end.

Definition is_zero_byte (c : byte) : bool := Py.mem c [x00].

Definition is_one_byte (c : byte) : bool :=
  Py.mem c (Py.slice 0 1 Base58.alphabet).

(** What the decode map says about a character, as a check that can be run
    on each of the 256 bytes. *)
Definition char_check (c : byte) : bool :=
  match Base58.decode_map c with
  | None => true
  | Some d =>
      (d <? 58)
      && match Py.slice (N.to_nat d) (N.to_nat d + 1) Base58.alphabet with
         | [c'] => Byte.eqb c' c
         | _ => false
         end
      && (Byte.to_N c <? 128)
      && negb (Py.str_isspace c)
      && Bool.eqb (d =? 0) (Byte.eqb c x31)
  end.

(** The same for a digit. *)
Definition digit_check (k : nat) : bool :=
  match Py.slice k (k + 1) Base58.alphabet with
  | [c] =>
      match Base58.decode_map c with
      | Some d => d =? N.of_nat k
      | None => false
      end
  | _ => false
  end.

(** The loop of [b58encode_int] with the fuel [b58encode_int] gives it. *)
Definition b58digits (i : N) (string : list byte) : list byte :=
  Base58.b58encode_int_loop (N.to_nat (Py.bit_length i)) i string.

(** The number of bytes [b58decode] asks [int.to_bytes] for, beyond the
    leading zeros: [(acc.bit_length() + 7) // 8]. *)
Definition byte_length (n : N) : nat :=
  N.to_nat ((Py.bit_length n + 7) / 8).

(** [b58decode] once its argument has been stripped and encoded. *)
Definition b58decode_bytes (v : list byte) : result (list byte) :=
  let origlen := List.length v in
  let v := Py.bytes_lstrip (Py.slice 0 1 Base58.alphabet) v in
  let newlen := List.length v in
  let* acc := Base58.b58decode_int v in
  Py.int_to_bytes acc (origlen - newlen + N.to_nat ((Py.bit_length acc + 7) / 8)).

Definition is_string_parse_error (e : exn) : Prop :=
  exists msg, e = StringParseError msg.

Definition is_binary_parse_error (e : exn) : Prop :=
  exists msg, e = BinaryParseError msg.

(** The identifier of [ADDR_BYTES_STR_TEST_DATA], as a bare multihash. *)
Definition sha256_multihash : list byte :=
  [x12; x20; xd5; x2e; xbb; x89; xd8; x5b; x02; xa2; x84; x94; x82; x03;
   xa6; x2f; xf2; x83; x89; xc5; x7c; x9f; x42; xbe; xec; x4e; xc2; x0d;
   xb7; x6a; x68; x91; x1c; x0b].

Definition sha256_peer_id : string :=
  "QmcgpsyWgH8Y8ajJz1Cu72KnS5uo2Aa2LpzU7kinSupNKC".

(** A character of the base58 alphabet. *)
Definition is_base58 (c : byte) : bool :=
  match Base58.decode_map c with
  | Some _ => true
  | None => false
  end.

(** The characters [b58decode] reads: those of the string without the
    whitespace at its end. *)
Definition text_of (s : string) : list byte :=
  list_byte_of_string (Py.str_rstrip s).

(** A string made of base58 characters, whitespace at its end apart. *)
Definition is_base58_text (s : string) : bool :=
  forallb is_base58 (text_of s).

(** The number a varint denotes: seven bits a byte, the low ones first. *)
Definition varint_value (v : list byte) : N :=
  fold_right (fun b acc => Byte.to_N b mod 128 + 128 * acc) 0 v.

(** The continuation bit of a byte of a varint. *)
Definition continues (b : byte) : bool := 128 <=? Byte.to_N b.

(** * Facts about bytes *)

Lemma to_N_lt_256 (b : byte) : Byte.to_N b < 256.
Proof. pose proof (Byte.to_N_bounded b). lia. Qed.

Lemma to_N_byte_of_N (n : N) : n < 256 -> Byte.to_N (byte_of_N n) = n.
Proof.
  intros Hn. unfold byte_of_N.
  destruct (Byte.of_N n) as [b|] eqn:E.
  - now apply Byte.to_of_N in E.
  - apply Byte.of_N_None_iff in E. lia.
Qed.

Lemma byte_of_N_to_N (b : byte) : byte_of_N (Byte.to_N b) = b.
Proof. unfold byte_of_N. now rewrite Byte.of_to_N. Qed.

Lemma to_N_inj (a b : byte) : Byte.to_N a = Byte.to_N b -> a = b.
Proof.
  intros H. rewrite <- (byte_of_N_to_N a), <- (byte_of_N_to_N b). now rewrite H.
Qed.

Lemma len_app {A : Type} (l1 l2 : list A) : len (l1 ++ l2) = len l1 + len l2.
Proof. unfold len. rewrite length_app. lia. Qed.

(** * Varint: decoding undoes encoding *)

Lemma low7_plus_flag (n : N) :
  N.lor (N.land n 0x7f) 0x80 = n mod 128 + 128.
Proof.
  assert (H0 : N.land (N.land n 0x7f) 0x80 = 0).
  { rewrite <- N.land_assoc. now rewrite N.land_0_r. }
  rewrite <- (N.lxor_lor _ _ H0), <- (N.add_nocarry_lxor _ _ H0).
  change 0x7f with (N.ones 7). now rewrite N.land_ones.
Qed.

Lemma low7_is_mod (n : N) : N.land n 0x7f = n mod 128.
Proof. change 0x7f with (N.ones 7). now rewrite N.land_ones. Qed.

Lemma split_low7 (n : N) :
  N.lor (N.land n 0x7f) (N.shiftl (N.shiftr n 7) 7) = n.
Proof.
  change 0x7f with (N.ones 7).
  rewrite <- N.ldiff_ones_r, N.lor_comm. apply N.lor_ldiff_and.
Qed.

Lemma read_varint_loop_encode (fuel : nat) :
  forall (n x s : N) (i : nat) (rest : list byte),
    n < 2 ^ (7 * N.of_nat (S fuel)) ->
    read_varint_loop (Varint.encode_loop fuel n ++ rest) x s i
    = Ok (N.lor x (N.shiftl n s),
          (i + List.length (Varint.encode_loop fuel n))%nat).
Proof.
  induction fuel as [|fuel IH]; intros n x s i rest Hn.
  - (* a single group *)
    assert (Hsmall : n < 128) by (simpl in Hn; lia).
    assert (Hz : N.shiftr n 7 = 0).
    { rewrite N.shiftr_div_pow2. now apply N.div_small. }
    cbn [Varint.encode_loop]. rewrite Hz. cbn [N.eqb negb app read_varint_loop].
    rewrite low7_is_mod, N.mod_small by assumption.
    rewrite to_N_byte_of_N by lia.
    destruct (N.ltb_spec n 0x80) as [_|Hge]; [|lia].
    cbn [List.length]. f_equal. f_equal. lia.
  - cbn [Varint.encode_loop].
    destruct (N.eqb_spec (N.shiftr n 7) 0) as [Hz|Hnz]; cbn [negb].
    + assert (Hsmall : n < 128).
      { rewrite N.shiftr_div_pow2 in Hz.
        apply N.div_small_iff in Hz; [exact Hz | discriminate]. }
      cbn [app read_varint_loop].
      rewrite low7_is_mod, N.mod_small by assumption.
      rewrite to_N_byte_of_N by lia.
      destruct (N.ltb_spec n 0x80) as [_|Hge]; [|lia].
      cbn [List.length]. f_equal. f_equal. lia.
    + cbn [app read_varint_loop].
      rewrite low7_plus_flag.
      assert (Hm : n mod 128 < 128) by (apply N.mod_lt; discriminate).
      rewrite to_N_byte_of_N by (clear - Hm; revert Hm; generalize (n mod 128); intros; lia).
      destruct (N.ltb_spec (n mod 128 + 128) 0x80) as [Hlt|_]; [exfalso; clear - Hlt; revert Hlt; generalize (n mod 128); intros; lia|].
      rewrite <- low7_plus_flag, N.land_lor_distr_l.
      rewrite <- N.land_assoc.
      change (N.land 0x7f 0x7f) with 0x7f. change (N.land 0x80 0x7f) with 0.
      rewrite N.lor_0_r.
      rewrite IH.
      * cbn [List.length]. f_equal. f_equal; [|lia].
        rewrite <- N.lor_assoc. f_equal.
        rewrite N.add_comm, <- N.shiftl_shiftl, <- N.shiftl_lor.
        now rewrite split_low7.
      * rewrite N.shiftr_div_pow2.
        apply N.Div0.div_lt_upper_bound.
        rewrite <- N.pow_add_r.
        replace (7 + 7 * N.of_nat (S fuel)) with (7 * N.of_nat (S (S fuel))) by lia.
        exact Hn.
Qed.

Lemma lt_pow2_succ_log2 (n : N) : n < 2 ^ N.succ (N.log2 n).
Proof.
  destruct (N.eq_dec n 0) as [->|Hn]; [reflexivity|].
  apply N.log2_spec. lia.
Qed.

Lemma read_varint_code_encode (n : N) (rest : list byte) :
  read_varint_code (Varint.encode n ++ rest)
  = Ok (n, List.length (Varint.encode n)).
Proof.
  unfold read_varint_code, Varint.encode.
  rewrite read_varint_loop_encode.
  - now rewrite N.shiftl_0_r, N.lor_0_l.
  - eapply N.lt_le_trans; [apply lt_pow2_succ_log2|].
    apply N.pow_le_mono_r; [discriminate|].
    rewrite N2Nat.inj_succ || idtac.
    lia.
Qed.

(** * Stripping *)

Section Stripping.

Variable p : byte -> bool.

Lemma lstrip_by_length (v : list byte) :
  (List.length (Py.lstrip_by p v) <= List.length v)%nat.
Proof.
  induction v as [|c v IH]; cbn; [lia|]. destruct (p c); cbn; lia.
Qed.

(** What [lstrip] removes, when the set has one member [c0]. *)
Lemma lstrip_by_split (c0 : byte) (v : list byte) :
  (forall c, p c = true -> c = c0) ->
  v = repeat c0 (List.length v - List.length (Py.lstrip_by p v))
      ++ Py.lstrip_by p v.
Proof.
  intros Hp. induction v as [|c v IH]; [reflexivity|].
  cbn [Py.lstrip_by]. destruct (p c) eqn:E.
  - cbn [List.length]. rewrite Nat.sub_succ_l by apply lstrip_by_length.
    cbn [repeat app]. rewrite (Hp c E). f_equal. exact IH.
  - now rewrite Nat.sub_diag.
Qed.

Lemma lstrip_by_unstrippable (v : list byte) :
  unstrippable p (Py.lstrip_by p v).
Proof.
  induction v as [|c v IH]; [exact I|].
  cbn [Py.lstrip_by]. destruct (p c) eqn:E; [exact IH | exact E].
Qed.

Lemma lstrip_by_id (v : list byte) :
  unstrippable p v -> Py.lstrip_by p v = v.
Proof. destruct v as [|c v]; [reflexivity|]. cbn. now intros ->. Qed.

Lemma lstrip_by_repeat (c0 : byte) (k : nat) (v : list byte) :
  p c0 = true -> unstrippable p v ->
  Py.lstrip_by p (repeat c0 k ++ v) = v.
Proof.
  intros H0 Hv. induction k as [|k IH]; cbn [repeat app].
  - now apply lstrip_by_id.
  - cbn [Py.lstrip_by]. now rewrite H0.
Qed.

Lemma rstrip_by_id (v : list byte) :
  unstrippable p (rev v) -> Py.rstrip_by p v = v.
Proof.
  intros H. unfold Py.rstrip_by. rewrite lstrip_by_id by exact H.
  apply rev_involutive.
Qed.

Lemma rstrip_by_unstrippable (v : list byte) :
  unstrippable p (rev (Py.rstrip_by p v)).
Proof.
  unfold Py.rstrip_by. rewrite rev_involutive. apply lstrip_by_unstrippable.
Qed.

(** A stricter set leaves an unstrippable list unstrippable. *)
Lemma unstrippable_weaken (q : byte -> bool) (v : list byte) :
  (forall c, q c = true -> p c = true) ->
  unstrippable p v -> unstrippable q v.
Proof.
  intros Hpq. destruct v as [|c v]; [trivial|]. cbn. intros Hc.
  destruct (q c) eqn:E; [|reflexivity].
  apply Hpq in E. congruence.
Qed.

(** The end of a suffix is the end of the whole list. *)
Lemma unstrippable_rev_suffix (pre v : list byte) :
  unstrippable p (rev (pre ++ v)) -> unstrippable p (rev v).
Proof.
  rewrite rev_app_distr. destruct (rev v) as [|c r]; [intros _; exact I|].
  now cbn.
Qed.

Lemma unstrippable_Forall (v : list byte) :
  Forall (fun c => p c = false) v -> unstrippable p v.
Proof. intros H. destruct H; [exact I | assumption]. Qed.

End Stripping.

Lemma bytes_isspace_str_isspace (c : byte) :
  Py.bytes_isspace c = true -> Py.str_isspace c = true.
Proof.
  unfold Py.bytes_isspace, Py.str_isspace. cbv zeta.
  generalize (Byte.to_N c). intros n H.
  apply orb_true_iff in H. destruct H as [H|H].
  - now rewrite H.
  - apply N.eqb_eq in H. subst n. reflexivity.
Qed.

Lemma times_singleton {A : Type} (c : A) (k : nat) :
  Py.times [c] k = repeat c k.
Proof. induction k as [|k IH]; cbn; [reflexivity | now rewrite IH]. Qed.

(** * Base58: the alphabet *)

Lemma base_58 : Base58.base = 58.
Proof. reflexivity. Qed.

Lemma char_check_all (c : byte) : char_check c = true.
Proof. destruct c; vm_compute; reflexivity. Qed.

Lemma decode_map_Some (c : byte) (d : N) :
  Base58.decode_map c = Some d ->
  d < 58
  /\ Py.slice (N.to_nat d) (N.to_nat d + 1) Base58.alphabet = [c]
  /\ Byte.to_N c < 128
  /\ Py.str_isspace c = false
  /\ (d = 0 <-> c = x31).
Proof.
  intros Hd. pose proof (char_check_all c) as H.
  unfold char_check in H. rewrite Hd in H.
  repeat (apply andb_true_iff in H; destruct H as [H ?]).
  apply N.ltb_lt in H.
  destruct (Py.slice _ _ _) as [|c' [|? ?]]; try discriminate.
  repeat split; try assumption.
  - f_equal. now apply Byte.byte_dec_bl.
  - now apply N.ltb_lt.
  - now apply negb_true_iff.
  - intros ->. cbn in *. apply Byte.byte_dec_bl.
    destruct (Byte.eqb c x31); [reflexivity | discriminate].
  - intros ->. destruct (N.eqb_spec d 0); [assumption | discriminate].
Qed.

Lemma digit_check_all : forallb digit_check (seq 0 58) = true.
Proof. vm_compute. reflexivity. Qed.

Lemma digit_char (d : N) :
  d < 58 ->
  exists c, Py.slice (N.to_nat d) (N.to_nat d + 1) Base58.alphabet = [c]
            /\ Base58.decode_map c = Some d.
Proof.
  intros Hd.
  assert (Hin : In (N.to_nat d) (seq 0 58)) by (apply in_seq; lia).
  pose proof (proj1 (forallb_forall _ _) digit_check_all _ Hin) as H.
  unfold digit_check in H.
  destruct (Py.slice _ _ _) as [|c [|? ?]]; try discriminate.
  exists c. split; [reflexivity|].
  destruct (Base58.decode_map c) as [d'|]; [|discriminate].
  apply N.eqb_eq in H. f_equal. lia.
Qed.

(** * Base58: the integer loops *)

Lemma b58encode_int_loop_zero (fuel : nat) (string : list byte) :
  Base58.b58encode_int_loop fuel 0 string = string.
Proof. now destruct fuel. Qed.

Lemma half_lt_pow2 (i : N) (fuel : nat) :
  i < 2 ^ N.of_nat (S fuel) -> i / 58 < 2 ^ N.of_nat fuel.
Proof.
  intros Hi. apply N.Div0.div_lt_upper_bound.
  rewrite Nat2N.inj_succ, N.pow_succ_r' in Hi.
  nia.
Qed.

Lemma b58encode_int_loop_fuel (f1 : nat) :
  forall (f2 : nat) (i : N) (string : list byte),
    i < 2 ^ N.of_nat f1 -> i < 2 ^ N.of_nat f2 ->
    Base58.b58encode_int_loop f1 i string
    = Base58.b58encode_int_loop f2 i string.
Proof.
  induction f1 as [|f1 IH]; intros f2 i string H1 H2.
  - assert (i = 0) by (cbn in H1; lia). subst i.
    now rewrite !b58encode_int_loop_zero.
  - destruct f2 as [|f2].
    + assert (i = 0) by (cbn in H2; lia). subst i.
      now rewrite !b58encode_int_loop_zero.
    + cbn [Base58.b58encode_int_loop].
      destruct (i =? 0); [reflexivity|].
      rewrite base_58. apply IH; now apply half_lt_pow2.
Qed.

Lemma lt_pow2_bit_length (i : N) :
  i < 2 ^ N.of_nat (N.to_nat (Py.bit_length i)).
Proof. rewrite N2Nat.id. apply N.size_gt. Qed.

Lemma b58digits_zero (string : list byte) : b58digits 0 string = string.
Proof. apply b58encode_int_loop_zero. Qed.

Lemma b58digits_step (i : N) (string : list byte) :
  i <> 0 ->
  b58digits i string
  = b58digits (i / 58)
      (Py.slice (N.to_nat (i mod 58)) (N.to_nat (i mod 58) + 1) Base58.alphabet
       ++ string).
Proof.
  intros Hi. unfold b58digits.
  pose proof (lt_pow2_bit_length i) as Hlt.
  destruct (N.to_nat (Py.bit_length i)) as [|f] eqn:Ef.
  - cbn in Hlt. lia.
  - cbn [Base58.b58encode_int_loop].
    destruct (N.eqb_spec i 0) as [|_]; [contradiction|].
    rewrite base_58.
    apply b58encode_int_loop_fuel.
    + now apply half_lt_pow2.
    + apply lt_pow2_bit_length.
Qed.

(** Decoding what the encoding loop put in front of [string] resumes at
    [string] with the encoded number as accumulator. *)
Lemma b58decode_b58digits (fuel : nat) :
  forall (i : N) (string : list byte),
    i < 2 ^ N.of_nat fuel ->
    Base58.b58decode_int_loop (b58digits i string) 0
    = Base58.b58decode_int_loop string i.
Proof.
  induction fuel as [|fuel IH]; intros i string Hi.
  - assert (i = 0) by (cbn in Hi; lia). subst i. now rewrite b58digits_zero.
  - destruct (N.eq_dec i 0) as [->|Hnz]; [now rewrite b58digits_zero|].
    rewrite b58digits_step by exact Hnz.
    assert (Hm : i mod 58 < 58) by (apply N.mod_lt; discriminate).
    destruct (digit_char _ Hm) as (c & Hc & Hd).
    rewrite Hc. cbn [app].
    rewrite IH by now apply half_lt_pow2.
    cbn [Base58.b58decode_int_loop]. rewrite Hd, base_58.
    f_equal. rewrite N.mul_comm. symmetry. apply N.div_mod. discriminate.
Qed.

(** Encoding what the decoding loop read gives the characters back. *)
Lemma b58digits_b58decode (v : list byte) :
  forall (acc n : N) (string : list byte),
    acc <> 0 ->
    Base58.b58decode_int_loop v acc = Ok n ->
    b58digits n string = b58digits acc (v ++ string).
Proof.
  induction v as [|c v IH]; intros acc n string Hacc Hdec.
  - cbn in Hdec. now injection Hdec as ->.
  - cbn [Base58.b58decode_int_loop] in Hdec.
    destruct (Base58.decode_map c) as [d|] eqn:Hd; [|discriminate].
    destruct (decode_map_Some _ _ Hd) as (Hlt & Hsl & _).
    rewrite base_58 in Hdec.
    rewrite (IH _ _ string) with (2 := Hdec) by lia.
    rewrite b58digits_step by lia.
    replace ((acc * 58 + d) / 58) with acc.
    2:{ rewrite N.mul_comm. apply N.div_unique with d; lia. }
    replace ((acc * 58 + d) mod 58) with d.
    2:{ rewrite N.mul_comm. apply N.mod_unique with acc; lia. }
    rewrite Hsl. reflexivity.
Qed.

(** Every character the encoding loop emits belongs to the alphabet. *)
Lemma b58digits_Forall (P : byte -> Prop) (fuel : nat) :
  (forall c d, Base58.decode_map c = Some d -> P c) ->
  forall (i : N) (string : list byte),
    i < 2 ^ N.of_nat fuel -> Forall P string -> Forall P (b58digits i string).
Proof.
  intros HP. induction fuel as [|fuel IH]; intros i string Hi Hs.
  - assert (i = 0) by (cbn in Hi; lia). subst i. now rewrite b58digits_zero.
  - destruct (N.eq_dec i 0) as [->|Hnz]; [now rewrite b58digits_zero|].
    rewrite b58digits_step by exact Hnz.
    assert (Hm : i mod 58 < 58) by (apply N.mod_lt; discriminate).
    destruct (digit_char _ Hm) as (c & Hc & Hd).
    rewrite Hc. cbn [app].
    apply IH; [now apply half_lt_pow2|].
    constructor; [now apply (HP c (i mod 58)) | exact Hs].
Qed.

(** The first character emitted for a non-zero number is not the zero
    digit ['1']. *)
Lemma b58digits_head (fuel : nat) :
  forall (i : N) (string : list byte),
    i < 2 ^ N.of_nat fuel -> i <> 0 ->
    exists c t, b58digits i string = c :: t /\ c <> x31.
Proof.
  induction fuel as [|fuel IH]; intros i string Hi Hnz.
  - cbn in Hi. lia.
  - rewrite b58digits_step by exact Hnz.
    assert (Hm : i mod 58 < 58) by (apply N.mod_lt; discriminate).
    destruct (digit_char _ Hm) as (c & Hc & Hd).
    rewrite Hc. cbn [app].
    destruct (N.eq_dec (i / 58) 0) as [Hq|Hq].
    + rewrite Hq, b58digits_zero. exists c, string. split; [reflexivity|].
      intros ->. apply decode_map_Some in Hd.
      destruct Hd as (_ & _ & _ & _ & Hz).
      assert (Hz' : i mod 58 = 0) by now apply Hz.
      pose proof (N.div_mod i 58). lia.
    + apply IH; [now apply half_lt_pow2 | exact Hq].
Qed.

(** * Integers and their big-endian bytes *)

Lemma int_from_bytes_acc (v : list byte) :
  forall acc,
    fold_left (fun a c => a * 256 + Byte.to_N c) v acc
    = acc * 256 ^ len v + Py.int_from_bytes v.
Proof.
  unfold Py.int_from_bytes.
  induction v as [|c v IH]; intros acc.
  - cbn. unfold len. cbn. lia.
  - cbn [fold_left]. rewrite IH, (IH (0 * 256 + Byte.to_N c)).
    unfold len. cbn [List.length]. rewrite Nat2N.inj_succ, N.pow_succ_r'.
    lia.
Qed.

Lemma int_from_bytes_cons (c : byte) (v : list byte) :
  Py.int_from_bytes (c :: v) = Byte.to_N c * 256 ^ len v + Py.int_from_bytes v.
Proof.
  unfold Py.int_from_bytes at 1. cbn [fold_left].
  now rewrite int_from_bytes_acc.
Qed.

Lemma int_from_bytes_snoc (v : list byte) (c : byte) :
  Py.int_from_bytes (v ++ [c]) = Py.int_from_bytes v * 256 + Byte.to_N c.
Proof. unfold Py.int_from_bytes. now rewrite fold_left_app. Qed.

Lemma int_from_bytes_lt (v : list byte) : Py.int_from_bytes v < 256 ^ len v.
Proof.
  induction v as [|c v IH]; [reflexivity|].
  rewrite int_from_bytes_cons.
  unfold len in *. cbn [List.length]. rewrite Nat2N.inj_succ, N.pow_succ_r'.
  pose proof (to_N_lt_256 c). nia.
Qed.

Lemma int_to_bytes_little_app (a : nat) :
  forall (b : nat) (n : N),
    Py.int_to_bytes_little (a + b) n
    = Py.int_to_bytes_little a n
      ++ Py.int_to_bytes_little b (n / 256 ^ N.of_nat a).
Proof.
  induction a as [|a IH]; intros b n.
  - cbn [Nat.add Py.int_to_bytes_little app]. now rewrite N.div_1_r.
  - cbn [Nat.add Py.int_to_bytes_little app]. rewrite IH.
    rewrite Nat2N.inj_succ, N.pow_succ_r', N.Div0.div_div. reflexivity.
Qed.

Lemma int_to_bytes_little_zero (k : nat) :
  Py.int_to_bytes_little k 0 = repeat x00 k.
Proof. induction k as [|k IH]; cbn; [reflexivity | now rewrite IH]. Qed.

Lemma rev_repeat {A : Type} (c : A) (k : nat) : rev (repeat c k) = repeat c k.
Proof.
  induction k as [|k IH]; [reflexivity|].
  cbn [repeat rev]. rewrite IH. clear IH.
  induction k as [|k IH]; [reflexivity|]. cbn. now rewrite IH.
Qed.

(** Writing a number on more bytes than it needs pads it with zeros. *)
Lemma int_to_bytes_padded (n : N) (k m : nat) :
  n < 256 ^ N.of_nat m ->
  Py.int_to_bytes n (k + m)
  = Ok (repeat x00 k ++ rev (Py.int_to_bytes_little m n)).
Proof.
  intros Hn. unfold Py.int_to_bytes.
  assert (Hle : 256 ^ N.of_nat m <= 256 ^ N.of_nat (k + m)).
  { apply N.pow_le_mono_r; [discriminate | lia]. }
  destruct (N.ltb_spec n (256 ^ N.of_nat (k + m))) as [_|Hge]; [|lia].
  rewrite Nat.add_comm, int_to_bytes_little_app.
  rewrite N.div_small by exact Hn.
  now rewrite int_to_bytes_little_zero, rev_app_distr, rev_repeat.
Qed.

Lemma int_from_bytes_int_to_bytes (m : nat) :
  forall n, n < 256 ^ N.of_nat m ->
    Py.int_from_bytes (rev (Py.int_to_bytes_little m n)) = n.
Proof.
  induction m as [|m IH]; intros n Hn.
  - cbn in *. lia.
  - cbn [Py.int_to_bytes_little rev]. rewrite int_from_bytes_snoc.
    assert (Hm : n mod 256 < 256) by (apply N.mod_lt; discriminate).
    rewrite to_N_byte_of_N by exact Hm.
    rewrite IH.
    + rewrite N.mul_comm. symmetry. apply N.div_mod. discriminate.
    + apply N.Div0.div_lt_upper_bound.
      now rewrite Nat2N.inj_succ, N.pow_succ_r' in Hn.
Qed.

Lemma int_to_bytes_int_from_bytes (v : list byte) :
  rev (Py.int_to_bytes_little (List.length v) (Py.int_from_bytes v)) = v.
Proof.
  induction v as [|c v IH] using rev_ind; [reflexivity|].
  rewrite length_app, Nat.add_comm. cbn [List.length Nat.add].
  cbn [Py.int_to_bytes_little rev]. rewrite int_from_bytes_snoc.
  pose proof (to_N_lt_256 c) as Hc.
  replace ((Py.int_from_bytes v * 256 + Byte.to_N c) / 256)
    with (Py.int_from_bytes v).
  2:{ rewrite N.mul_comm. apply N.div_unique with (Byte.to_N c); lia. }
  replace ((Py.int_from_bytes v * 256 + Byte.to_N c) mod 256)
    with (Byte.to_N c).
  2:{ rewrite N.mul_comm. apply N.mod_unique with (Py.int_from_bytes v); lia. }
  now rewrite IH, byte_of_N_to_N.
Qed.

(** ** The byte length *)

Lemma pow_256 (m : N) : 256 ^ m = 2 ^ (8 * m).
Proof. change 256 with (2 ^ 8). now rewrite N.pow_mul_r. Qed.

Lemma pow_256_pos (m : N) : 0 < 256 ^ m.
Proof. apply N.neq_0_lt_0, N.pow_nonzero. discriminate. Qed.

Lemma byte_length_zero : byte_length 0 = 0%nat.
Proof. reflexivity. Qed.

Lemma byte_length_unique (n : N) (m : nat) :
  256 ^ N.of_nat m <= n < 256 ^ N.of_nat (S m) -> byte_length n = S m.
Proof.
  intros [Hlo Hhi].
  assert (Hpos : 0 < n).
  { eapply N.lt_le_trans; [|exact Hlo]. apply pow_256_pos. }
  rewrite pow_256 in Hlo, Hhi.
  apply N.log2_le_pow2 in Hlo; [|exact Hpos].
  apply N.log2_lt_pow2 in Hhi; [|exact Hpos].
  unfold byte_length, Py.bit_length.
  rewrite N.size_log2 by lia.
  replace ((N.succ (N.log2 n) + 7) / 8) with (N.of_nat (S m)); [lia|].
  apply N.div_unique with (N.succ (N.log2 n) + 7 - 8 * N.of_nat (S m)); lia.
Qed.

Lemma byte_length_spec (n : N) :
  n <> 0 ->
  exists m, byte_length n = S m /\ 256 ^ N.of_nat m <= n < 256 ^ N.of_nat (S m).
Proof.
  intros Hn.
  exists (N.to_nat (N.log2 n / 8)).
  assert (Hb : 256 ^ N.of_nat (N.to_nat (N.log2 n / 8)) <= n
               < 256 ^ N.of_nat (S (N.to_nat (N.log2 n / 8)))).
  { destruct (N.log2_spec n) as [Hlo Hhi]; [lia|].
    pose proof (N.div_mod (N.log2 n) 8) as Hdm.
    assert (Hr : N.log2 n mod 8 < 8) by (apply N.mod_lt; discriminate).
    revert Hdm Hr. generalize (N.log2 n mod 8). generalize (N.log2 n / 8).
    intros q r Hdm Hr. specialize (Hdm ltac:(discriminate)).
    rewrite !pow_256. split.
    - eapply N.le_trans; [|exact Hlo].
      apply N.pow_le_mono_r; [discriminate | lia].
    - eapply N.lt_le_trans; [exact Hhi|].
      apply N.pow_le_mono_r; [discriminate | lia]. }
  split; [now apply byte_length_unique | exact Hb].
Qed.

Lemma lt_pow_byte_length (n : N) : n < 256 ^ N.of_nat (byte_length n).
Proof.
  destruct (N.eq_dec n 0) as [->|Hn]; [reflexivity|].
  destruct (byte_length_spec n Hn) as (m & -> & _ & Hhi). exact Hhi.
Qed.

Lemma is_zero_byte_true (c : byte) : is_zero_byte c = true -> c = x00.
Proof.
  unfold is_zero_byte, Py.mem. cbn. rewrite orb_false_r.
  apply Byte.byte_dec_bl.
Qed.

Lemma is_zero_byte_to_N (c : byte) : Byte.to_N c <> 0 -> is_zero_byte c = false.
Proof.
  intros Hc. destruct (is_zero_byte c) eqn:E; [|reflexivity].
  apply is_zero_byte_true in E. subst c. now contradiction Hc.
Qed.

(** The shortest big-endian writing of a number has no leading zero. *)
Lemma int_to_bytes_canonical (n : N) :
  unstrippable is_zero_byte (rev (Py.int_to_bytes_little (byte_length n) n)).
Proof.
  destruct (N.eq_dec n 0) as [->|Hn]; [exact I|].
  destruct (byte_length_spec n Hn) as (m & -> & Hlo & Hhi).
  replace (S m) with (m + 1)%nat by lia.
  rewrite int_to_bytes_little_app. cbn [Py.int_to_bytes_little].
  rewrite rev_app_distr. cbn [rev app unstrippable].
  apply is_zero_byte_to_N.
  assert (Hq : 0 < n / 256 ^ N.of_nat m < 256).
  { split.
    - apply N.div_str_pos. split; [|exact Hlo]. apply pow_256_pos.
    - apply N.Div0.div_lt_upper_bound.
      now rewrite Nat2N.inj_succ, N.pow_succ_r', N.mul_comm in Hhi. }
  rewrite N.mod_small by apply Hq.
  rewrite to_N_byte_of_N by apply Hq. lia.
Qed.

(** A byte string without leading zero is the shortest writing of the
    number it denotes. *)
Lemma byte_length_int_from_bytes (v : list byte) :
  unstrippable is_zero_byte v ->
  byte_length (Py.int_from_bytes v) = List.length v.
Proof.
  destruct v as [|c v]; [reflexivity|]. cbn [unstrippable]. intros Hc.
  cbn [List.length]. apply byte_length_unique.
  pose proof (int_from_bytes_lt (c :: v)) as Hhi.
  split; [|exact Hhi].
  rewrite int_from_bytes_cons. fold (len v).
  assert (Byte.to_N c <> 0).
  { intros Hz. change 0 with (Byte.to_N x00) in Hz. apply to_N_inj in Hz.
    subst c. discriminate. }
  nia.
Qed.

(** * Base58: decoding and encoding are mutually inverse *)

Lemma is_one_byte_true (c : byte) : is_one_byte c = true -> c = x31.
Proof.
  unfold is_one_byte, Py.mem. cbn. rewrite orb_false_r.
  apply Byte.byte_dec_bl.
Qed.

Lemma is_one_byte_false (c : byte) : c <> x31 -> is_one_byte c = false.
Proof.
  intros Hc. destruct (is_one_byte c) eqn:E; [|reflexivity].
  now apply is_one_byte_true in E.
Qed.

Lemma b58decode_unfold (s : string) :
  Base58.b58decode s
  = let* v := Py.str_encode_ascii (Py.str_rstrip s) in b58decode_bytes v.
Proof. reflexivity. Qed.

Lemma length_repeat_app_sub {A : Type} (c : A) (k : nat) (v : list A) :
  (List.length (repeat c k ++ v) - List.length v)%nat = k.
Proof. rewrite length_app, repeat_length. lia. Qed.

Lemma b58encode_spec (k : nat) (rest : list byte) :
  unstrippable is_zero_byte rest ->
  Base58.b58encode (repeat x00 k ++ rest)
  = repeat x31 k ++ b58digits (Py.int_from_bytes rest) [].
Proof.
  intros Hrest. unfold Base58.b58encode, Py.bytes_lstrip.
  fold is_zero_byte.
  rewrite lstrip_by_repeat by (reflexivity || exact Hrest).
  rewrite length_repeat_app_sub.
  change (Py.slice 0 1 Base58.alphabet) with [x31].
  rewrite times_singleton.
  unfold Base58.b58encode_int. now rewrite andb_false_r.
Qed.

Lemma b58decode_bytes_spec (k : nat) (rest : list byte) (acc : N) :
  unstrippable is_one_byte rest ->
  unstrippable Py.bytes_isspace (rev rest) ->
  Base58.b58decode_int_loop rest 0 = Ok acc ->
  b58decode_bytes (repeat x31 k ++ rest)
  = Ok (repeat x00 k
        ++ rev (Py.int_to_bytes_little (byte_length acc) acc)).
Proof.
  intros Hone Hsp Hdec. unfold b58decode_bytes, Py.bytes_lstrip.
  fold is_one_byte.
  rewrite lstrip_by_repeat by (reflexivity || exact Hone).
  rewrite length_repeat_app_sub.
  unfold Base58.b58decode_int.
  change (negb (Py.mem x20 Base58.alphabet)) with true. cbv iota.
  unfold Py.bytes_rstrip. rewrite rstrip_by_id by exact Hsp.
  rewrite Hdec. cbn [bind].
  fold (byte_length acc).
  apply int_to_bytes_padded, lt_pow_byte_length.
Qed.

Lemma b58decode_int_loop_chars (v : list byte) :
  forall acc n,
    Base58.b58decode_int_loop v acc = Ok n ->
    Forall (fun c => exists d, Base58.decode_map c = Some d) v.
Proof.
  induction v as [|c v IH]; intros acc n H; [constructor|].
  cbn [Base58.b58decode_int_loop] in H.
  destruct (Base58.decode_map c) as [d|] eqn:Hd; [|discriminate].
  constructor; [now exists d | eapply IH; eassumption].
Qed.

(** The characters [b58encode] produces. *)
Lemma b58encode_chars (P : byte -> Prop) (mm : list byte) :
  (forall c d, Base58.decode_map c = Some d -> P c) ->
  Forall P (Base58.b58encode mm).
Proof.
  intros HP.
  rewrite (lstrip_by_split is_zero_byte x00 mm is_zero_byte_true).
  rewrite b58encode_spec by apply lstrip_by_unstrippable.
  apply Forall_app. split.
  - apply Forall_forall. intros c Hc. apply repeat_spec in Hc. subst c.
    now apply (HP x31 0).
  - eapply b58digits_Forall; [exact HP | apply lt_pow2_bit_length | constructor].
Qed.

Lemma b58encode_is_ascii (mm : list byte) :
  Py.is_ascii (Base58.b58encode mm) = true.
Proof.
  unfold Py.is_ascii. apply forallb_forall.
  apply Forall_forall.
  apply b58encode_chars. intros c d Hd. apply decode_map_Some in Hd.
  now apply N.ltb_lt.
Qed.

Lemma b58digits_unstrippable (n : N) : unstrippable is_one_byte (b58digits n []).
Proof.
  destruct (N.eq_dec n 0) as [->|Hn]; [exact I|].
  destruct (b58digits_head _ n [] (lt_pow2_bit_length n) Hn) as (c & t & -> & Hc).
  now apply is_one_byte_false.
Qed.

(** Decoding undoes encoding, on every byte string. *)
Lemma b58decode_b58encode (mm : list byte) :
  Base58.b58decode (string_of_list_byte (Base58.b58encode mm)) = Ok mm.
Proof.
  rewrite b58decode_unfold.
  assert (Hnosp : Forall (fun c => Py.str_isspace c = false) (Base58.b58encode mm)).
  { apply b58encode_chars. intros c d Hd. now apply decode_map_Some in Hd. }
  unfold Py.str_rstrip. rewrite list_byte_of_string_of_list_byte.
  rewrite rstrip_by_id.
  2:{ apply unstrippable_Forall, Forall_rev, Hnosp. }
  unfold Py.str_encode_ascii. rewrite list_byte_of_string_of_list_byte.
  rewrite b58encode_is_ascii. cbn [bind].
  set (rest := Py.lstrip_by is_zero_byte mm).
  assert (Hrest : unstrippable is_zero_byte rest) by apply lstrip_by_unstrippable.
  rewrite (lstrip_by_split is_zero_byte x00 mm is_zero_byte_true) in Hnosp |- *.
  fold rest in Hnosp |- *.
  set (k := (List.length mm - List.length rest)%nat) in *.
  rewrite b58encode_spec in Hnosp |- * by exact Hrest.
  apply Forall_app in Hnosp. destruct Hnosp as [_ Hnosp].
  rewrite (b58decode_bytes_spec k _ (Py.int_from_bytes rest)).
  - rewrite byte_length_int_from_bytes by exact Hrest.
    now rewrite int_to_bytes_int_from_bytes.
  - apply b58digits_unstrippable.
  - apply unstrippable_Forall, Forall_rev.
    revert Hnosp. apply Forall_impl. intros c Hc.
    destruct (Py.bytes_isspace c) eqn:E; [|reflexivity].
    apply bytes_isspace_str_isspace in E. congruence.
  - rewrite (b58decode_b58digits _ _ [] (lt_pow2_bit_length _)). reflexivity.
Qed.

(** Encoding undoes decoding, up to the whitespace [b58decode] strips from
    the end of its argument. *)
Lemma b58encode_b58decode (s : string) (mm : list byte) :
  Base58.b58decode s = Ok mm ->
  Base58.b58encode mm = list_byte_of_string (Py.str_rstrip s).
Proof.
  rewrite b58decode_unfold. unfold Py.str_encode_ascii.
  set (v := list_byte_of_string (Py.str_rstrip s)).
  destruct (Py.is_ascii v); [|discriminate]. cbn [bind].
  assert (Hv : unstrippable Py.str_isspace (rev v)).
  { unfold v, Py.str_rstrip. rewrite list_byte_of_string_of_list_byte.
    apply rstrip_by_unstrippable. }
  set (rest := Py.lstrip_by is_one_byte v).
  assert (Hrest : unstrippable is_one_byte rest) by apply lstrip_by_unstrippable.
  pose proof (lstrip_by_split is_one_byte x31 v is_one_byte_true) as Hsplit.
  fold rest in Hsplit.
  set (k := (List.length v - List.length rest)%nat) in *.
  assert (Hsp : unstrippable Py.bytes_isspace (rev rest)).
  { apply unstrippable_weaken with (p := Py.str_isspace);
      [apply bytes_isspace_str_isspace|].
    rewrite Hsplit in Hv. eapply unstrippable_rev_suffix. exact Hv. }
  rewrite Hsplit. clearbody rest k. clear Hsplit Hv v.
  intros Hdec.
  destruct (Base58.b58decode_int_loop rest 0) as [acc|e] eqn:Hloop.
  - rewrite (b58decode_bytes_spec k rest acc Hrest Hsp Hloop) in Hdec.
    injection Hdec as <-.
    rewrite b58encode_spec by apply int_to_bytes_canonical.
    rewrite int_from_bytes_int_to_bytes by apply lt_pow_byte_length.
    f_equal.
    destruct rest as [|c rest]; [cbn in Hloop; now injection Hloop as <-|].
    cbn [unstrippable] in Hrest.
    cbn [Base58.b58decode_int_loop] in Hloop.
    destruct (Base58.decode_map c) as [d|] eqn:Hd; [|discriminate].
    destruct (decode_map_Some _ _ Hd) as (Hlt & Hsl & _ & _ & Hz).
    assert (Hd0 : d <> 0).
    { intros H0. apply Hz in H0. subst c. discriminate. }
    rewrite N.mul_0_l, N.add_0_l in Hloop.
    rewrite (b58digits_b58decode _ _ _ [] Hd0 Hloop), app_nil_r.
    rewrite b58digits_step by exact Hd0.
    rewrite N.div_small, N.mod_small by exact Hlt.
    now rewrite Hsl, b58digits_zero.
  - exfalso. revert Hdec. unfold b58decode_bytes, Py.bytes_lstrip.
    fold is_one_byte.
    rewrite lstrip_by_repeat by (reflexivity || exact Hrest).
    unfold Base58.b58decode_int.
    change (negb (Py.mem x20 Base58.alphabet)) with true. cbv iota.
    unfold Py.bytes_rstrip. rewrite rstrip_by_id by exact Hsp.
    rewrite Hloop. discriminate.
Qed.

(** * The p2p codec *)

Lemma p2p_to_bytes_inv (proto : Protocol) (s : string) (buf : list byte) :
  P2P.to_bytes proto s = Ok buf ->
  exists mm,
    Base58.b58decode s = Ok mm /\ 5 <= len mm
    /\ buf = Varint.encode (len mm) ++ mm.
Proof.
  unfold P2P.to_bytes.
  destruct (Base58.b58decode s) as [mm|e]; [|discriminate].
  destruct (N.ltb_spec (len mm) 5) as [|Hge]; [discriminate|].
  intros H. injection H as <-. now exists mm.
Qed.

Lemma skipn_length_app {A : Type} (l1 l2 : list A) :
  skipn (List.length l1) (l1 ++ l2) = l2.
Proof. induction l1 as [|a l1 IH]; [reflexivity | exact IH]. Qed.

Lemma p2p_to_string_encoded (proto : Protocol) (mm : list byte) :
  P2P.to_string proto (Varint.encode (len mm) ++ mm)
  = Ok (string_of_list_byte (Base58.b58encode mm)).
Proof.
  unfold P2P.to_string. rewrite read_varint_code_encode. cbn [bind].
  rewrite skipn_length_app, N.eqb_refl. cbn [negb].
  unfold Py.bytes_decode_ascii. now rewrite b58encode_is_ascii.
Qed.

Lemma p2p_to_string_inv (proto : Protocol) (buf : list byte) (s : string) :
  P2P.to_string proto buf = Ok s ->
  exists size n,
    read_varint_code buf = Ok (size, n)
    /\ len (skipn n buf) = size
    /\ s = string_of_list_byte (Base58.b58encode (skipn n buf)).
Proof.
  unfold P2P.to_string.
  destruct (read_varint_code buf) as [[size n]|e]; [|discriminate].
  cbn [bind].
  destruct (N.eqb_spec (len (skipn n buf)) size) as [Heq|]; [|discriminate].
  cbn [negb]. unfold Py.bytes_decode_ascii.
  rewrite b58encode_is_ascii. intros H. injection H as <-.
  now exists size, n.
Qed.

(** C5. For every input string whose base58 decoding yields fewer than five
    bytes, [to_bytes] of the p2p codec raises (the [ValueError] of
    line 25) and so returns no bytes. *)
Theorem p2p_to_bytes_rejects_short
    (proto : Protocol) (string : string) (mm : list byte) :
  Base58.b58decode string = Ok mm ->
  len mm < 5 ->
  P2P.to_bytes proto string = Err (ValueError "invalid P2P multihash").
Proof.
  intros Hdec Hlen. unfold P2P.to_bytes. rewrite Hdec.
  destruct (N.ltb_spec (len mm) 5) as [_|Hge]; [reflexivity | lia].
Qed.

Lemma p2p_to_bytes_rejects_short_witness :
  Base58.b58decode "2g" = Ok [x61]
  /\ len [x61] < 5
  /\ P2P.to_bytes Protocols.p2p "2g" = Err (ValueError "invalid P2P multihash").
Proof.
  split; [reflexivity|]. split; [reflexivity|].
  apply (p2p_to_bytes_rejects_short Protocols.p2p "2g" [x61]); reflexivity.
Defined.

(** C7. When the length declared by the leading varint differs from the
    number of bytes that follow it, [to_string] of the p2p codec raises
    "inconsistent lengths"; it returns a string only when the varint was
    read and the two lengths are equal. *)
Theorem p2p_to_string_checks_length (proto : Protocol) (buf : list byte) :
  (forall size n,
      read_varint_code buf = Ok (size, n) ->
      len (skipn n buf) <> size ->
      P2P.to_string proto buf = Err (ValueError "inconsistent lengths"))
  /\ (forall s,
         P2P.to_string proto buf = Ok s ->
         exists size n,
           read_varint_code buf = Ok (size, n) /\ len (skipn n buf) = size).
Proof.
  split.
  - intros size n Hread Hne. unfold P2P.to_string. rewrite Hread. cbn [bind].
    destruct (N.eqb_spec (len (skipn n buf)) size); [contradiction | reflexivity].
  - intros s Hs. apply p2p_to_string_inv in Hs.
    destruct Hs as (size & n & Hread & Hlen & _). now exists size, n.
Qed.

Lemma p2p_to_string_checks_length_witness :
  P2P.to_string Protocols.p2p [x05; x01; x02; x03]
  = Err (ValueError "inconsistent lengths")
  /\ exists size n,
       read_varint_code [x02; x01; x02] = Ok (size, n)
       /\ len (skipn n [x02; x01; x02]) = size.
Proof.
  split.
  - apply (proj1 (p2p_to_string_checks_length Protocols.p2p [x05; x01; x02; x03])
             5 1%nat); [reflexivity | vm_compute; lia].
  - apply (proj2 (p2p_to_string_checks_length Protocols.p2p [x02; x01; x02]) "5T").
    reflexivity.
Defined.

(** C9. The result of [to_string] of the p2p codec depends on the buffer
    only: under any two protocols it fails alike or returns the same
    string. *)
Theorem p2p_to_string_ignores_protocol (p1 p2 : Protocol) (buf : list byte) :
  P2P.to_string p1 buf = P2P.to_string p2 buf.
Proof. reflexivity. Qed.

(** C10. Every byte string that [to_bytes] of the p2p codec returns is the
    canonical varint of a length of at least five followed by exactly that
    many bytes, and [to_string] accepts it: the varint is read back as
    that length, so "inconsistent lengths" is not raised, and the string
    returned is the encoded one without its trailing whitespace. *)
Theorem p2p_to_bytes_output_accepted
    (proto proto' : Protocol) (string : string) (buf : list byte) :
  P2P.to_bytes proto string = Ok buf ->
  exists mm,
    buf = Varint.encode (len mm) ++ mm
    /\ 5 <= len mm
    /\ read_varint_code buf
       = Ok (len mm, List.length (Varint.encode (len mm)))
    /\ P2P.to_string proto' buf = Ok (Py.str_rstrip string).
Proof.
  intros H. apply p2p_to_bytes_inv in H. destruct H as (mm & Hdec & Hlen & ->).
  exists mm. split; [reflexivity|]. split; [exact Hlen|].
  split; [apply read_varint_code_encode|].
  rewrite p2p_to_string_encoded, (b58encode_b58decode string mm Hdec).
  now rewrite string_of_list_byte_of_string.
Qed.

Lemma p2p_to_bytes_output_accepted_witness :
  exists mm,
    [x05; x61; x62; x63; x64; x65] = Varint.encode (len mm) ++ mm
    /\ 5 <= len mm
    /\ read_varint_code [x05; x61; x62; x63; x64; x65]
       = Ok (len mm, List.length (Varint.encode (len mm)))
    /\ P2P.to_string Protocols.ip4 [x05; x61; x62; x63; x64; x65]
       = Ok (Py.str_rstrip "BzFRgmr ").
Proof.
  apply (p2p_to_bytes_output_accepted Protocols.p2p Protocols.ip4 "BzFRgmr ").
  reflexivity.
Defined.

(** C2, as the code has it.  For the p2p codec: a string that [to_bytes]
    accepts and that does not end in whitespace is given back by
    [to_string]; a buffer that [to_string] accepts, whose length prefix is
    the canonical varint and whose payload has at least five bytes, is
    given back by [to_bytes]. *)
Theorem p2p_round_trip (proto : Protocol) :
  (forall s buf,
      P2P.to_bytes proto s = Ok buf ->
      Py.str_rstrip s = s ->
      P2P.to_string proto buf = Ok s)
  /\ (forall buf s size n,
         P2P.to_string proto buf = Ok s ->
         read_varint_code buf = Ok (size, n) ->
         firstn n buf = Varint.encode size ->
         5 <= size ->
         P2P.to_bytes proto s = Ok buf).
Proof.
  split.
  - intros s buf Hb Hs. apply p2p_to_bytes_inv in Hb.
    destruct Hb as (mm & Hdec & _ & ->).
    rewrite p2p_to_string_encoded.
    rewrite (b58encode_b58decode s mm Hdec).
    now rewrite string_of_list_byte_of_string, Hs.
  - intros buf s size n Hs Hread Hcanon Hsize.
    apply p2p_to_string_inv in Hs.
    destruct Hs as (size' & n' & Hread' & Hlen & ->).
    rewrite Hread in Hread'. injection Hread' as <- <-.
    unfold P2P.to_bytes. rewrite b58decode_b58encode, Hlen.
    destruct (N.ltb_spec size 5) as [|_]; [lia|].
    now rewrite <- Hcanon, firstn_skipn.
Qed.

Lemma p2p_round_trip_witness :
  P2P.to_string Protocols.p2p [x05; x61; x62; x63; x64; x65] = Ok "BzFRgmr"
  /\ P2P.to_bytes Protocols.p2p "BzFRgmr" = Ok [x05; x61; x62; x63; x64; x65].
Proof.
  split.
  - apply (proj1 (p2p_round_trip Protocols.p2p) "BzFRgmr"); reflexivity.
  - apply (proj2 (p2p_round_trip Protocols.p2p) _ "BzFRgmr" 5 1%nat);
      [reflexivity | reflexivity | reflexivity | lia].
Defined.

(** C2 as stated fails on the code.  The buffer [00] is accepted by
    [to_string], which returns the empty string, and [to_bytes] rejects the
    empty string; the string ["BzFRgmr "] is accepted by [to_bytes], and
    [to_string] gives it back without its final space. *)
Lemma p2p_round_trip_counterexample :
  (P2P.to_string Protocols.p2p [x00] = Ok ""
   /\ P2P.to_bytes Protocols.p2p "" = Err (ValueError "invalid P2P multihash"))
  /\ (P2P.to_bytes Protocols.p2p "BzFRgmr " = Ok [x05; x61; x62; x63; x64; x65]
      /\ P2P.to_string Protocols.p2p [x05; x61; x62; x63; x64; x65] = Ok "BzFRgmr").
Proof. repeat split; reflexivity. Qed.

(** * The transform engine *)

(** C1. [string_to_bytes] turns the concatenated address into exactly the
    seventeen bytes [04 7f000001 9102 04d2 04 7f000001 06 10e1], and
    [bytes_to_string] turns these bytes into the address again. *)
Theorem concatenation_example :
  Transforms.string_to_bytes Protocols.REGISTRY example_string = Ok example_bytes
  /\ List.length example_bytes = 17%nat
  /\ Transforms.bytes_to_string Protocols.REGISTRY example_bytes = Ok example_string.
Proof. repeat split; vm_compute; reflexivity. Qed.

(** C3. Iterating the seventeen bytes yields exactly four segments, in
    this order: ip4 with [7f000001], udp with [04d2], ip4 with [7f000001],
    tcp with [10e1]. *)
Theorem bytes_iter_example :
  exists segments,
    Transforms.bytes_iter Protocols.REGISTRY example_bytes = Ok segments
    /\ map (fun '(_, proto, _, value) => (proto, value)) segments
       = [(Protocols.ip4, [x7f; x00; x00; x01]);
          (Protocols.udp, [x04; xd2]);
          (Protocols.ip4, [x7f; x00; x00; x01]);
          (Protocols.tcp, [x10; xe1])].
Proof. eexists. split; vm_compute; reflexivity. Qed.

(** ** The iteration always has fuel enough *)

Lemma read_varint_loop_progress (buf : list byte) :
  forall (x s : N) (i : nat) (v : N) (n : nat),
    read_varint_loop buf x s i = Ok (v, n) ->
    (i < n <= i + List.length buf)%nat.
Proof.
  induction buf as [|b buf IH]; intros x s i v n H; [discriminate|].
  cbn [read_varint_loop] in H. cbn [List.length].
  destruct (Byte.to_N b <? 0x80).
  - injection H as _ <-. lia.
  - apply IH in H. lia.
Qed.

Lemma read_varint_code_progress (buf : list byte) (v : N) (n : nat) :
  read_varint_code buf = Ok (v, n) -> (1 <= n <= List.length buf)%nat.
Proof.
  intros H. apply read_varint_loop_progress in H. lia.
Qed.

(** Any fuel of at least the length of the buffer gives the same result:
    the cursor advances by at least the byte of the protocol code. *)
Lemma bytes_iter_loop_fuel (registry : Protocols.Registry) (f1 : nat) :
  forall (f2 offset : nat) (buf : list byte),
    (List.length buf <= f1)%nat -> (List.length buf <= f2)%nat ->
    Transforms.bytes_iter_loop f1 registry offset buf
    = Transforms.bytes_iter_loop f2 registry offset buf.
Proof.
  induction f1 as [|f1 IH]; intros f2 offset buf H1 H2.
  - destruct buf; [now destruct f2 | cbn in H1; lia].
  - destruct buf as [|b buf]; [now destruct f2|].
    destruct f2 as [|f2]; [cbn in H2; lia|].
    cbn [Transforms.bytes_iter_loop].
    destruct (read_varint_code (b :: buf)) as [[c n]|e] eqn:Hread;
      [|reflexivity].
    apply read_varint_code_progress in Hread.
    cbn [Transforms.reraise bind].
    destruct (Transforms.reraise _ (Protocols.find_by_code registry c));
      [|reflexivity].
    cbn [bind].
    destruct (Transforms.reraise _ (codec_by_name (codec a))); [|reflexivity].
    cbn [bind].
    destruct (Transforms.reraise _ (Transforms.size_for_addr _ _))
      as [[size m]|]; [|reflexivity].
    cbn [bind].
    destruct (_ <? _)%nat; [reflexivity|].
    rewrite (IH f2); [reflexivity| |];
      rewrite !length_skipn; cbn [List.length] in *; lia.
Qed.

Lemma bytes_iter_fuel (registry : Protocols.Registry) (fuel : nat) (buf : list byte) :
  (List.length buf <= fuel)%nat ->
  Transforms.bytes_iter_loop fuel registry 0 buf
  = Transforms.bytes_iter registry buf.
Proof.
  intros H. unfold Transforms.bytes_iter.
  apply bytes_iter_loop_fuel; [exact H | apply Nat.le_refl].
Qed.

(** ** Only the engine's own errors leave the engine *)

Lemma reraise_inv {A : Type} (error : string -> exn) (r : result A) (e : exn) :
  Transforms.reraise error r = Err e -> exists msg, e = error msg.
Proof.
  destruct r as [a|e']; [discriminate|]. cbn. intros H. injection H as <-.
  now eexists.
Qed.

(** Peel one [let*] off a failing computation. *)
Ltac peel H :=
  match type of H with
  | bind (Transforms.reraise ?error ?r) _ = Err _ =>
      let E := fresh "E" in
      destruct (Transforms.reraise error r) eqn:E;
      [cbn [bind] in H | cbn [bind] in H; injection H as <-;
                         exact (reraise_inv _ _ _ E)]
  end.

Lemma component_error (proto : Protocol) (c : Codec) (value : string) (e : exn) :
  Transforms.component proto c value = Err e -> is_string_parse_error e.
Proof.
  unfold Transforms.component. intros H. peel H.
  destruct (negb (IS_PATH c) && (SIZE c <? 0)%Z); discriminate.
Qed.

Lemma string_to_bytes_loop_error (registry : Protocols.Registry) (k : nat) :
  forall (sp : list string) (e : exn),
    (List.length sp <= k)%nat ->
    Transforms.string_to_bytes_loop registry sp = Err e ->
    is_string_parse_error e.
Proof.
  induction k as [|k IH]; intros sp e Hk H.
  - destruct sp; [discriminate | cbn in Hk; lia].
  - destruct sp as [|element sp']; [discriminate|].
    cbn [Transforms.string_to_bytes_loop] in H. cbn in Hk.
    peel H. peel H.
    assert (Hmarker :
      forall e, (let* rest := Transforms.string_to_bytes_loop registry sp' in
                 Ok (Varint.encode (code a) ++ rest)) = Err e ->
                is_string_parse_error e).
    { intros e' He'.
      destruct (Transforms.string_to_bytes_loop registry sp') eqn:E1;
        [discriminate|].
      cbn in He'. injection He' as <-. apply (IH sp'); [lia | exact E1]. }
    destruct a0 as [c|]; [|now apply Hmarker].
    destruct (SIZE c =? 0)%Z; [now apply Hmarker|].
    destruct sp' as [|value sp'']; [injection H as <-; now eexists|].
    destruct (IS_PATH c); [now apply component_error in H|].
    destruct (Transforms.component a c value) eqn:E1;
      [|cbn in H; injection H as <-; now apply component_error in E1].
    cbn [bind] in H.
    destruct (Transforms.string_to_bytes_loop registry sp'') eqn:E2;
      [discriminate|].
    cbn in H. injection H as <-. apply (IH sp''); [cbn in Hk; lia | exact E2].
Qed.

Lemma string_to_bytes_error (registry : Protocols.Registry) (s : string) (e : exn) :
  Transforms.string_to_bytes registry s = Err e -> is_string_parse_error e.
Proof.
  unfold Transforms.string_to_bytes. intros H.
  assert (Hbad : @Err (list byte) (StringParseError "Must begin with /") = Err e ->
                 is_string_parse_error e).
  { intros H'. injection H' as <-. now eexists. }
  destruct s as [|c s]; [now apply Hbad|].
  destruct c as [[] [] [] [] [] [] [] []]; try (now apply Hbad).
  eapply string_to_bytes_loop_error; [apply Nat.le_refl | exact H].
Qed.

Lemma bytes_iter_loop_error (registry : Protocols.Registry) (fuel : nat) :
  forall (offset : nat) (buf : list byte) (e : exn),
    Transforms.bytes_iter_loop fuel registry offset buf = Err e ->
    is_binary_parse_error e.
Proof.
  induction fuel as [|fuel IH]; intros offset buf e H.
  - destruct buf; [discriminate|]. cbn in H. injection H as <-. now eexists.
  - destruct buf as [|b buf]; [discriminate|].
    cbn [Transforms.bytes_iter_loop] in H.
    peel H. destruct a as [c n]. peel H. peel H. peel H.
    destruct a1 as [size m].
    match type of H with
    | (if ?t then _ else _) = _ => destruct t
    end; [injection H as <-; now eexists|].
    match type of H with
    | bind ?r _ = _ => destruct r eqn:E3
    end; [discriminate|].
    cbn in H. injection H as <-. eapply IH. exact E3.
Qed.

Lemma all_fragments_error (segments : list Transforms.segment) (e : exn) :
  Transforms.all_fragments segments = Err e -> is_binary_parse_error e.
Proof.
  induction segments as [|s segments IH]; [discriminate|].
  cbn [Transforms.all_fragments]. intros H.
  destruct (Transforms.fragments s) eqn:E1.
  - cbn [bind] in H. destruct (Transforms.all_fragments segments);
      [discriminate|]. cbn in H. injection H as <-. now apply IH.
  - cbn in H. injection H as <-. clear IH.
    destruct s as [[[o proto] size] value]. unfold Transforms.fragments in E1.
    peel E1. destruct a as [c|]; [|discriminate].
    destruct (SIZE c =? 0)%Z; [discriminate|].
    peel E1. discriminate.
Qed.

Lemma bytes_to_string_error (registry : Protocols.Registry) (buf : list byte) (e : exn) :
  Transforms.bytes_to_string registry buf = Err e -> is_binary_parse_error e.
Proof.
  unfold Transforms.bytes_to_string, Transforms.bytes_iter. intros H.
  destruct (Transforms.bytes_iter_loop _ _ _ _) eqn:E1.
  - cbn [bind] in H. destruct (Transforms.all_fragments a) eqn:E2;
      [discriminate|]. cbn in H. injection H as <-.
    now apply all_fragments_error in E2.
  - cbn in H. injection H as <-. now apply bytes_iter_loop_error in E1.
Qed.

(** Cutting the address of the examples anywhere but between two segments
    leaves a buffer that [bytes_to_string] rejects. *)
Lemma truncated_example (n : nat) :
  (n < 17)%nat -> ~ In n [0; 5; 9; 14]%nat ->
  exists msg,
    Transforms.bytes_to_string Protocols.REGISTRY (firstn n example_bytes)
    = Err (BinaryParseError msg).
Proof.
  intros Hn Hcut.
  do 17 (destruct n as [|n];
         [first [exfalso; apply Hcut; cbn; tauto
                | eexists; vm_compute; reflexivity]|]).
  lia.
Qed.

(** C8. With the unparsable protocol registered, [string_to_bytes] fails
    with [StringParseError] on ["/ip4/"] and on ["/unparsable/5"], and
    [bytes_to_string] fails with [BinaryParseError] on a buffer that names
    the unparsable protocol and on every buffer obtained by cutting the
    address of the examples inside a segment; whatever makes
    [string_to_bytes] fail, the error is a [StringParseError], and
    whatever makes [bytes_to_string] fail, it is a [BinaryParseError]. *)
Theorem engine_errors :
  (exists registry,
      protocol_extension = Ok registry
      /\ (exists msg, Transforms.string_to_bytes registry "/ip4/"
                      = Err (StringParseError msg))
      /\ (exists msg, Transforms.string_to_bytes registry "/unparsable/5"
                      = Err (StringParseError msg))
      /\ (exists msg, Transforms.bytes_to_string registry [xcd; x02; x0c; x0d]
                      = Err (BinaryParseError msg)))
  /\ (forall n,
         (n < 17)%nat -> ~ In n [0; 5; 9; 14]%nat ->
         exists msg,
           Transforms.bytes_to_string Protocols.REGISTRY (firstn n example_bytes)
           = Err (BinaryParseError msg))
  /\ (forall registry string e,
         Transforms.string_to_bytes registry string = Err e ->
         is_string_parse_error e)
  /\ (forall registry buf e,
         Transforms.bytes_to_string registry buf = Err e ->
         is_binary_parse_error e).
Proof.
  split.
  - eexists. split; [vm_compute; reflexivity|].
    repeat split; eexists; vm_compute; reflexivity.
  - split; [exact truncated_example|]. split.
    + apply string_to_bytes_error.
    + apply bytes_to_string_error.
Qed.

Lemma engine_errors_witness :
  is_string_parse_error (StringParseError "Must begin with /")
  /\ is_binary_parse_error (BinaryParseError "Unexpected end of data")
  /\ exists msg,
       Transforms.bytes_to_string Protocols.REGISTRY (firstn 16 example_bytes)
       = Err (BinaryParseError msg).
Proof.
  destruct engine_errors as (_ & Ht & Hs & Hb). split; [|split].
  - apply (Hs Protocols.REGISTRY "test"). reflexivity.
  - apply (Hb Protocols.REGISTRY [x04; x7f; x00; x00]). reflexivity.
  - apply (Ht 16%nat); [lia | cbn; lia].
Defined.

(** * The cid codec *)

(** C4. Under the p2p protocol the legacy base58 string is encoded as a
    version-1 identifier: version [01], codec tag [72], then the
    multihash the string denotes.  Decoding these bytes under p2p gives
    the legacy string again; decoding them under any protocol that is not
    p2p gives the modern string instead. *)
Theorem cid_autoconversion_example :
  exists multihash,
    Base58.b58decode legacy_peer_id = Ok multihash
    /\ Cid.to_bytes Protocols.p2p legacy_peer_id = Ok (x01 :: x72 :: multihash)
    /\ CidLib.cid_decode (x01 :: x72 :: multihash)
       = Ok (CidLib.mkCID 1 0x72 multihash)
    /\ Cid.to_string Protocols.p2p (x01 :: x72 :: multihash) = Ok legacy_peer_id
    /\ (forall proto,
          String.eqb (name proto) "p2p" = false ->
          Cid.to_string proto (x01 :: x72 :: multihash) = Ok modern_peer_id)
    /\ modern_peer_id <> legacy_peer_id.
Proof.
  eexists. split; [vm_compute; reflexivity|].
  split; [vm_compute; reflexivity|].
  split; [vm_compute; reflexivity|].
  split; [vm_compute; reflexivity|].
  split; [|discriminate].
  intros proto Hname.
  unfold Cid.to_string, Cid.expected_codec. rewrite Hname.
  vm_compute. reflexivity.
Qed.

Lemma cid_autoconversion_example_witness :
  exists multihash,
    Cid.to_bytes Protocols.p2p legacy_peer_id = Ok (x01 :: x72 :: multihash)
    /\ Cid.to_string Protocols.ip6 (x01 :: x72 :: multihash) = Ok modern_peer_id.
Proof.
  destruct cid_autoconversion_example as (mh & _ & Hb & _ & _ & Hs & _).
  exists mh. split; [exact Hb|]. apply (Hs Protocols.ip6). reflexivity.
Defined.

Lemma cid_to_string_v1 (proto : Protocol) (buf : list byte) :
  Cid.is_legacy_binary buf = false ->
  Cid.to_string proto buf
  = let* parsed := CidLib.cid_decode buf in
    match Cid.expected_codec proto with
    | Some tag =>
        if CidLib.codec_tag parsed =? tag
        then Py.bytes_decode_ascii (Base58.b58encode (CidLib.multihash parsed))
        else Err Cid.wrong_codec
    | None => Ok (Multibase.encode buf)
    end.
Proof. unfold Cid.to_string. now intros ->. Qed.

(** C6. When the protocol requires a key type, [to_string] fails on every
    version-1 binary form whose codec tag is another one, and [to_bytes]
    fails on every modern string that denotes such an identifier. *)
Theorem cid_wrong_codec_rejected (proto : Protocol) (tag : N) :
  Cid.expected_codec proto = Some tag ->
  (forall buf parsed,
      Cid.is_legacy_binary buf = false ->
      CidLib.cid_decode buf = Ok parsed ->
      CidLib.codec_tag parsed <> tag ->
      Cid.to_string proto buf = Err Cid.wrong_codec)
  /\ (forall string buf parsed,
         Cid.is_legacy_string string = false ->
         Multibase.decode string = Ok buf ->
         CidLib.cid_decode buf = Ok parsed ->
         CidLib.codec_tag parsed <> tag ->
         exists e, Cid.to_bytes proto string = Err e).
Proof.
  intros Hexp. split.
  - intros buf parsed Hv1 Hdec Htag.
    rewrite cid_to_string_v1 by exact Hv1.
    rewrite Hdec, Hexp. cbn [bind].
    destruct (N.eqb_spec (CidLib.codec_tag parsed) tag); [contradiction | reflexivity].
  - intros string buf parsed Hmodern Hmb Hdec Htag.
    unfold Cid.to_bytes. rewrite Hmodern, Hmb. cbn [bind].
    rewrite Hdec, Hexp. cbn [bind].
    destruct (len buf <? 5); [now eexists|].
    destruct (N.eqb_spec (CidLib.codec_tag parsed) tag);
      [contradiction | now eexists].
Qed.

Lemma cid_wrong_codec_rejected_witness :
  Cid.to_string Protocols.p2p dag_pb_bytes = Err Cid.wrong_codec
  /\ exists e, Cid.to_bytes Protocols.p2p dag_pb_string = Err e.
Proof.
  destruct (cid_wrong_codec_rejected Protocols.p2p 0x72 eq_refl) as [Hs Hb].
  split.
  - apply (Hs dag_pb_bytes (CidLib.mkCID 1 0x70 (skipn 2 dag_pb_bytes)));
      [reflexivity | reflexivity | cbn; lia].
  - apply (Hb dag_pb_string dag_pb_bytes
             (CidLib.mkCID 1 0x70 (skipn 2 dag_pb_bytes)));
      [reflexivity | vm_compute; reflexivity | reflexivity | cbn; lia].
Defined.

(** * The model on the vectors of the test-suite *)

(** [test_size_for_addr]. *)
Example size_for_addr_none :
  (let* c := codec_by_name None in
   Transforms.size_for_addr c [x01; x02; x03]) = Ok (0%nat, 0%nat).
Proof. reflexivity. Qed.

Example size_for_addr_ip4 :
  (let* c := codec_by_name (Some "ip4") in
   Transforms.size_for_addr c [x01; x02; x03]) = Ok (4%nat, 0%nat).
Proof. reflexivity. Qed.

Example size_for_addr_cid :
  (let* c := codec_by_name (Some "cid") in
   Transforms.size_for_addr c [x40; x50; x60; x51]) = Ok (64%nat, 1%nat).
Proof. reflexivity. Qed.

(** [test_codec_to_string] and [test_codec_to_bytes] on the p2p entries:
    the legacy string and the version-1 binary form map to each other, a
    modern string gives the same bytes, and the bare multihash is shown in
    the legacy form. *)
Example cid_to_bytes_legacy :
  Cid.to_bytes Protocols.p2p sha256_peer_id = Ok (x01 :: x72 :: sha256_multihash).
Proof. vm_compute. reflexivity. Qed.

Example cid_to_string_version_1 :
  Cid.to_string Protocols.p2p (x01 :: x72 :: sha256_multihash) = Ok sha256_peer_id.
Proof. vm_compute. reflexivity. Qed.

Example cid_to_bytes_modern :
  Cid.to_bytes Protocols.p2p
    "bafzbeigvf25ytwc3akrijfecaotc74udrhcxzh2cx3we5qqnw5vgrei4bm"
  = Ok (x01 :: x72 :: sha256_multihash).
Proof. vm_compute. reflexivity. Qed.

Example cid_to_string_multihash :
  Cid.to_string Protocols.p2p sha256_multihash = Ok sha256_peer_id.
Proof. vm_compute. reflexivity. Qed.

(** [test_cid_autoconvert_to_bytes] and [test_cid_autoconvert_to_string]
    under a protocol without key type. *)
Example cid_to_bytes_no_key_type :
  exists multihash,
    Base58.b58decode legacy_peer_id = Ok multihash
    /\ Cid.to_bytes Protocols.ip6 legacy_peer_id = Ok multihash
    /\ Cid.to_string Protocols.ip6 multihash = Ok legacy_peer_id.
Proof. eexists. repeat split; vm_compute; reflexivity. Qed.

(** [test_codec_to_bytes_value_error] on the p2p entries. *)
Example cid_to_bytes_invalid_base58 :
  is_ok (Cid.to_bytes Protocols.p2p "15230d52ebb89d85b02a284948203a") = false.
Proof. reflexivity. Qed.

(** The codec of [p2p.py] on the same identifiers: it stores the multihash
    behind its length and converts nothing. *)
Example p2p_to_bytes_sha256 :
  P2P.to_bytes Protocols.p2p sha256_peer_id = Ok (x22 :: sha256_multihash).
Proof. vm_compute. reflexivity. Qed.

Example p2p_to_bytes_legacy_peer_id :
  exists multihash,
    Base58.b58decode legacy_peer_id = Ok multihash
    /\ P2P.to_bytes Protocols.p2p legacy_peer_id = Ok (x26 :: multihash)
    /\ P2P.to_string Protocols.ip6 (x26 :: multihash) = Ok legacy_peer_id.
Proof. eexists. repeat split; vm_compute; reflexivity. Qed.

Example p2p_to_string_dag_pb :
  P2P.to_string Protocols.p2p dag_pb_bytes = Err (ValueError "inconsistent lengths").
Proof. reflexivity. Qed.

(** * More on base58 decoding *)

(** [b58decode] after stripping and encoding, on a string split into its
    leading ones and the rest. *)
Lemma b58decode_bytes_eq (k : nat) (rest : list byte) :
  unstrippable is_one_byte rest ->
  unstrippable Py.bytes_isspace (rev rest) ->
  b58decode_bytes (repeat x31 k ++ rest)
  = let* acc := Base58.b58decode_int_loop rest 0 in
    Ok (repeat x00 k ++ rev (Py.int_to_bytes_little (byte_length acc) acc)).
Proof.
  intros Hone Hsp.
  destruct (Base58.b58decode_int_loop rest 0) as [acc|e] eqn:Hloop.
  - now apply b58decode_bytes_spec.
  - unfold b58decode_bytes, Py.bytes_lstrip. fold is_one_byte.
    rewrite lstrip_by_repeat by (reflexivity || exact Hone).
    unfold Base58.b58decode_int.
    change (negb (Py.mem x20 Base58.alphabet)) with true. cbv iota.
    unfold Py.bytes_rstrip. rewrite rstrip_by_id by exact Hsp.
    now rewrite Hloop.
Qed.

(** What [b58decode] computes, in terms of the characters that are left
    once the whitespace at the end is gone: [k] ones, then [rest]. *)
Lemma b58decode_shape (s : string) :
  exists (k : nat) (rest : list byte),
    list_byte_of_string (Py.str_rstrip s) = repeat x31 k ++ rest
    /\ unstrippable is_one_byte rest
    /\ Base58.b58decode s
       = let* _ := Py.str_encode_ascii (Py.str_rstrip s) in
         let* acc := Base58.b58decode_int_loop rest 0 in
         Ok (repeat x00 k ++ rev (Py.int_to_bytes_little (byte_length acc) acc)).
Proof.
  set (v := list_byte_of_string (Py.str_rstrip s)).
  assert (Hv : unstrippable Py.str_isspace (rev v)).
  { unfold v, Py.str_rstrip. rewrite list_byte_of_string_of_list_byte.
    apply rstrip_by_unstrippable. }
  set (rest := Py.lstrip_by is_one_byte v).
  assert (Hrest : unstrippable is_one_byte rest) by apply lstrip_by_unstrippable.
  pose proof (lstrip_by_split is_one_byte x31 v is_one_byte_true) as Hsplit.
  fold rest in Hsplit.
  set (k := (List.length v - List.length rest)%nat) in *.
  assert (Hsp : unstrippable Py.bytes_isspace (rev rest)).
  { apply unstrippable_weaken with (p := Py.str_isspace);
      [apply bytes_isspace_str_isspace|].
    rewrite Hsplit in Hv. eapply unstrippable_rev_suffix. exact Hv. }
  exists k, rest. split; [exact Hsplit|]. split; [exact Hrest|].
  rewrite b58decode_unfold. unfold Py.str_encode_ascii. fold v.
  destruct (Py.is_ascii v); [|reflexivity]. cbn [bind].
  rewrite Hsplit. now apply b58decode_bytes_eq.
Qed.

Lemma b58decode_int_loop_total (v : list byte) :
  Forall (fun c => exists d, Base58.decode_map c = Some d) v ->
  forall acc, exists n, Base58.b58decode_int_loop v acc = Ok n.
Proof.
  induction 1 as [|c v [d Hd] _ IH]; intros acc; [now exists acc|].
  cbn [Base58.b58decode_int_loop]. rewrite Hd. apply IH.
Qed.

Lemma b58decode_int_loop_invalid (v : list byte) (c : byte) :
  In c v -> Base58.decode_map c = None ->
  forall acc, exists msg, Base58.b58decode_int_loop v acc = Err (ValueError msg).
Proof.
  intros Hin Hc. induction v as [|c' v IH]; intros acc; [contradiction|].
  cbn [Base58.b58decode_int_loop].
  destruct (Base58.decode_map c') as [d|] eqn:Hd; [|now eexists].
  destruct Hin as [->|Hin]; [congruence | now apply IH].
Qed.

(** The number read lies between the accumulator shifted by the digits
    and the next accumulator shifted alike. *)
Lemma b58decode_int_loop_bounds (v : list byte) :
  forall acc n,
    Base58.b58decode_int_loop v acc = Ok n ->
    acc * 58 ^ len v <= n < (acc + 1) * 58 ^ len v.
Proof.
  induction v as [|c v IH]; intros acc n H.
  - cbn in H. injection H as <-. unfold len. cbn. lia.
  - cbn [Base58.b58decode_int_loop] in H.
    destruct (Base58.decode_map c) as [d|] eqn:Hd; [|discriminate].
    apply decode_map_Some in Hd. destruct Hd as (Hd & _).
    rewrite base_58 in H. apply IH in H.
    unfold len in *. cbn [List.length].
    rewrite Nat2N.inj_succ, N.pow_succ_r'.
    revert H. generalize (58 ^ N.of_nat (List.length v)). intros P H.
    nia.
Qed.

Lemma ascii_of_alphabet (v : list byte) :
  Forall (fun c => exists d, Base58.decode_map c = Some d) v ->
  Py.is_ascii v = true.
Proof.
  intros H. unfold Py.is_ascii. apply forallb_forall. apply Forall_forall.
  revert H. apply Forall_impl. intros c [d Hd].
  apply decode_map_Some in Hd. now apply N.ltb_lt.
Qed.

(** ** The byte length and the powers of 256 *)

Lemma byte_length_gt (n : N) (j : nat) :
  256 ^ N.of_nat j <= n -> (j < byte_length n)%nat.
Proof.
  intros Hj. pose proof (lt_pow_byte_length n) as Hn.
  assert (H : 256 ^ N.of_nat j < 256 ^ N.of_nat (byte_length n)) by lia.
  apply N.pow_lt_mono_r_iff in H; lia.
Qed.

Lemma byte_length_le (n : N) (m : nat) :
  n < 256 ^ N.of_nat m -> (byte_length n <= m)%nat.
Proof.
  intros Hm. destruct (N.eq_dec n 0) as [->|Hn]; [cbn; lia|].
  destruct (byte_length_spec n Hn) as (j & -> & Hlo & _).
  assert (H : 256 ^ N.of_nat j < 256 ^ N.of_nat m) by lia.
  apply N.pow_lt_mono_r_iff in H; lia.
Qed.

Lemma length_int_to_bytes_little (m : nat) :
  forall n, List.length (Py.int_to_bytes_little m n) = m.
Proof. induction m as [|m IH]; intros n; cbn; [reflexivity | now rewrite IH]. Qed.

(** * More on the p2p codec *)

Lemma is_base58_true (c : byte) :
  is_base58 c = true <-> exists d, Base58.decode_map c = Some d.
Proof.
  unfold is_base58. destruct (Base58.decode_map c) as [d|].
  - split; [now exists d | reflexivity].
  - split; [discriminate | now intros [d Hd]].
Qed.

Lemma is_base58_text_Forall (s : string) :
  is_base58_text s = true ->
  Forall (fun c => exists d, Base58.decode_map c = Some d) (text_of s).
Proof.
  unfold is_base58_text. intros H. apply Forall_forall. intros c Hc.
  apply is_base58_true. revert c Hc. now apply forallb_forall.
Qed.

Lemma length_list_byte_of_string (s : string) :
  List.length (list_byte_of_string s) = String.length s.
Proof.
  unfold list_byte_of_string. rewrite length_map.
  induction s as [|c s IH]; cbn; [reflexivity | now rewrite IH].
Qed.

Lemma length_text_of (s : string) :
  (List.length (text_of s) <= String.length s)%nat.
Proof.
  unfold text_of, Py.str_rstrip, Py.rstrip_by.
  rewrite list_byte_of_string_of_list_byte, length_rev.
  rewrite <- length_list_byte_of_string, <- (length_rev (list_byte_of_string s)).
  apply lstrip_by_length.
Qed.

(** The powers of 58 against those of 256, as far as the guard of
    [to_bytes] looks. *)
Lemma pow_58_256 (j : nat) :
  (2 <= j)%nat -> 256 ^ N.of_nat (Nat.min (j - 2) 4) <= 58 ^ N.of_nat j.
Proof.
  intros Hj.
  destruct (Nat.le_gt_cases 6 j) as [H6|H6].
  - replace (Nat.min (j - 2) 4) with 4%nat by lia.
    apply N.le_trans with (58 ^ 6); [vm_compute; discriminate|].
    apply N.pow_le_mono_r; [discriminate | lia].
  - do 6 (destruct j as [|j]; [try lia; vm_compute; discriminate|]). lia.
Qed.

(** The payload [b58decode] returns, with its length between the number
    of bytes the guard of [to_bytes] asks for and the length of the text. *)
Lemma b58decode_length (s : string) (mm : list byte) :
  Base58.b58decode s = Ok mm ->
  (List.length mm <= List.length (text_of s))%nat
  /\ ((7 <= List.length (text_of s))%nat -> (5 <= List.length mm)%nat).
Proof.
  destruct (b58decode_shape s) as (k & rest & Hsplit & Hone & ->).
  fold (text_of s) in Hsplit. rewrite Hsplit.
  destruct (Py.str_encode_ascii (Py.str_rstrip s)); [|discriminate].
  cbn [bind].
  destruct (Base58.b58decode_int_loop rest 0) as [acc|] eqn:Hloop;
    [|discriminate].
  cbn [bind]. intros H. injection H as <-.
  rewrite !length_app, !repeat_length, length_rev, length_int_to_bytes_little.
  pose proof (b58decode_int_loop_bounds _ _ _ Hloop) as [_ Hhi].
  split.
  - assert (byte_length acc <= List.length rest)%nat; [|lia].
    apply byte_length_le. eapply N.lt_le_trans; [exact Hhi|].
    rewrite N.add_0_l, N.mul_1_l. fold (len rest).
    apply N.pow_le_mono_l. discriminate.
  - intros H7. destruct rest as [|c rest]; [cbn in H7; lia|].
    cbn [unstrippable] in Hone.
    cbn [Base58.b58decode_int_loop] in Hloop.
    destruct (Base58.decode_map c) as [d|] eqn:Hd; [|discriminate].
    destruct (decode_map_Some _ _ Hd) as (_ & _ & _ & _ & Hz).
    assert (Hd0 : d <> 0).
    { intros H0. apply Hz in H0. subst c. discriminate. }
    apply b58decode_int_loop_bounds in Hloop. destruct Hloop as [Hlo _].
    cbn [List.length] in H7 |- *.
    destruct (Nat.le_gt_cases 2 (List.length rest)) as [H2|H2]; [|lia].
    pose proof (pow_58_256 _ H2) as Hp.
    assert (Hacc : 256 ^ N.of_nat (Nat.min (List.length rest - 2) 4) <= acc).
    { eapply N.le_trans; [exact Hp|]. eapply N.le_trans; [|exact Hlo].
      unfold len. revert Hd0. generalize (58 ^ N.of_nat (List.length rest)).
      intros P Hd0. nia. }
    apply byte_length_gt in Hacc. lia.
Qed.

(** X1. A string that holds, before the whitespace at its end, a character
    outside the base58 alphabet (a character above 127 is such a one) is
    rejected by [to_bytes] with the [ValueError] of line 22, whose message
    names the string. *)
Theorem p2p_to_bytes_rejects_foreign_character (proto : Protocol) (s : string) :
  is_base58_text s = false ->
  exists msg,
    P2P.to_bytes proto s
    = Err (ValueError ("failed to parse p2p addr: " ++ s ++ " " ++ msg)%string).
Proof.
  intros Hs.
  assert (Hc : exists c, In c (text_of s) /\ Base58.decode_map c = None).
  { unfold is_base58_text in Hs.
    induction (text_of s) as [|c v IH]; [discriminate|].
    cbn [forallb] in Hs. apply andb_false_iff in Hs. destruct Hs as [Hs|Hs].
    - exists c. split; [now left|]. unfold is_base58 in Hs.
      destruct (Base58.decode_map c); [discriminate | reflexivity].
    - destruct (IH Hs) as (c' & Hin & Hc'). exists c'. split; [now right | exact Hc']. }
  destruct Hc as (c & Hin & Hc).
  destruct (b58decode_shape s) as (k & rest & Hsplit & _ & Heq).
  unfold P2P.to_bytes. rewrite Heq.
  destruct (Py.str_encode_ascii (Py.str_rstrip s)); [|now eexists].
  cbn [bind].
  fold (text_of s) in Hsplit. rewrite Hsplit in Hin.
  apply in_app_or in Hin. destruct Hin as [Hin|Hin].
  - apply repeat_spec in Hin. subst c. discriminate.
  - destruct (b58decode_int_loop_invalid rest c Hin Hc 0) as [msg ->].
    now eexists.
Qed.

Lemma p2p_to_bytes_rejects_foreign_character_witness :
  exists msg,
    P2P.to_bytes Protocols.p2p "Qm0OIl"
    = Err (ValueError ("failed to parse p2p addr: " ++ "Qm0OIl" ++ " " ++ msg)%string).
Proof.
  apply (p2p_to_bytes_rejects_foreign_character Protocols.p2p "Qm0OIl").
  reflexivity.
Defined.

(** X2. A string made of at least seven base58 characters, whitespace at
    its end apart, is accepted by [to_bytes]: the guard of line 24 can
    only reject texts of six characters or fewer. *)
Theorem p2p_to_bytes_accepts_seven (proto : Protocol) (s : string) :
  is_base58_text s = true ->
  (7 <= List.length (text_of s))%nat ->
  exists buf, P2P.to_bytes proto s = Ok buf.
Proof.
  intros Hs H7. apply is_base58_text_Forall in Hs.
  assert (Hdec : exists mm, Base58.b58decode s = Ok mm).
  { destruct (b58decode_shape s) as (k & rest & Hsplit & _ & ->).
    unfold Py.str_encode_ascii. fold (text_of s) in Hsplit |- *.
    rewrite (ascii_of_alphabet _ Hs). cbn [bind].
    rewrite Hsplit in Hs. apply Forall_app in Hs. destruct Hs as [_ Hs].
    destruct (b58decode_int_loop_total rest Hs 0) as [acc ->].
    now eexists. }
  destruct Hdec as [mm Hdec].
  destruct (b58decode_length s mm Hdec) as [_ H5]. specialize (H5 H7).
  unfold P2P.to_bytes. rewrite Hdec.
  destruct (N.ltb_spec (len mm) 5) as [Hlt|_]; [unfold len in Hlt; lia|].
  now eexists.
Qed.

Lemma p2p_to_bytes_accepts_seven_witness :
  exists buf, P2P.to_bytes Protocols.p2p "2111111 " = Ok buf.
Proof.
  apply (p2p_to_bytes_accepts_seven Protocols.p2p "2111111 ");
    [reflexivity | vm_compute; lia].
Defined.

(** X3. The payload that [to_bytes] puts behind the length prefix is never
    longer than the string it was given. *)
Theorem p2p_payload_not_longer_than_text
    (proto : Protocol) (s : string) (buf : list byte) :
  P2P.to_bytes proto s = Ok buf ->
  exists mm,
    buf = Varint.encode (len mm) ++ mm
    /\ (List.length mm <= String.length s)%nat.
Proof.
  intros H. apply p2p_to_bytes_inv in H. destruct H as (mm & Hdec & _ & ->).
  exists mm. split; [reflexivity|].
  destruct (b58decode_length s mm Hdec) as [Hle _].
  pose proof (length_text_of s). lia.
Qed.

Lemma p2p_payload_not_longer_than_text_witness :
  exists mm,
    [x05; x61; x62; x63; x64; x65] = Varint.encode (len mm) ++ mm
    /\ (List.length mm <= String.length "BzFRgmr")%nat.
Proof.
  apply (p2p_payload_not_longer_than_text Protocols.p2p "BzFRgmr").
  reflexivity.
Defined.

(** X4. A string that [to_string] returns is made of base58 characters
    only: it has no slash, which separates the parts of an address, and
    [to_bytes] strips nothing from it. *)
Theorem p2p_to_string_gives_base58
    (proto : Protocol) (buf : list byte) (s : string) :
  P2P.to_string proto buf = Ok s ->
  forallb is_base58 (list_byte_of_string s) = true
  /\ ~ In x2f (list_byte_of_string s)
  /\ Py.str_rstrip s = s.
Proof.
  intros H. apply p2p_to_string_inv in H.
  destruct H as (size & n & _ & _ & ->).
  rewrite list_byte_of_string_of_list_byte.
  set (v := Base58.b58encode (skipn n buf)).
  assert (Hv : Forall (fun c => exists d, Base58.decode_map c = Some d) v).
  { apply b58encode_chars. intros c d Hd. now exists d. }
  split; [|split].
  - apply forallb_forall. intros c Hc. apply is_base58_true.
    revert c Hc. now apply Forall_forall.
  - intros Hin. apply (proj1 (Forall_forall _ _) Hv) in Hin.
    destruct Hin as [d Hd]. discriminate.
  - unfold Py.str_rstrip. rewrite list_byte_of_string_of_list_byte.
    rewrite rstrip_by_id; [reflexivity|].
    apply unstrippable_Forall, Forall_rev.
    revert Hv. apply Forall_impl. intros c [d Hd].
    now apply decode_map_Some in Hd.
Qed.

Lemma p2p_to_string_gives_base58_witness :
  forallb is_base58 (list_byte_of_string "BzFRgmr") = true
  /\ ~ In x2f (list_byte_of_string "BzFRgmr")
  /\ Py.str_rstrip "BzFRgmr" = "BzFRgmr".
Proof.
  apply (p2p_to_string_gives_base58 Protocols.p2p [x05; x61; x62; x63; x64; x65]).
  reflexivity.
Defined.

(** X5. When [to_string] fails, either [read_varint_code] failed, with
    that very error, or the lengths are inconsistent: decoding the base58
    text as ASCII never fails. *)
Theorem p2p_to_string_failures (proto : Protocol) (buf : list byte) (e : exn) :
  P2P.to_string proto buf = Err e ->
  read_varint_code buf = Err e \/ e = ValueError "inconsistent lengths".
Proof.
  unfold P2P.to_string.
  destruct (read_varint_code buf) as [[size n]|e'].
  - cbn [bind]. destruct (negb _).
    + intros H. injection H as <-. now right.
    + unfold Py.bytes_decode_ascii. rewrite b58encode_is_ascii. discriminate.
  - cbn [bind]. intros H. injection H as <-. now left.
Qed.

Lemma p2p_to_string_failures_witness :
  read_varint_code [x02; x61] = Err (ValueError "inconsistent lengths")
  \/ ValueError "inconsistent lengths" = ValueError "inconsistent lengths".
Proof.
  apply (p2p_to_string_failures Protocols.p2p [x02; x61]). reflexivity.
Defined.

(** X6. Two strings that [to_bytes] turns into the same bytes differ at
    most in the whitespace at their ends. *)
Theorem p2p_to_bytes_injective
    (p1 p2 : Protocol) (s1 s2 : string) (buf : list byte) :
  P2P.to_bytes p1 s1 = Ok buf ->
  P2P.to_bytes p2 s2 = Ok buf ->
  Py.str_rstrip s1 = Py.str_rstrip s2.
Proof.
  intros H1 H2.
  apply p2p_to_bytes_inv in H1. destruct H1 as (mm1 & Hdec1 & _ & ->).
  apply p2p_to_bytes_inv in H2. destruct H2 as (mm2 & Hdec2 & _ & Heq).
  pose proof (p2p_to_string_encoded p1 mm1) as Hs1.
  rewrite Heq, p2p_to_string_encoded in Hs1. injection Hs1 as Hs.
  rewrite (b58encode_b58decode _ _ Hdec1), (b58encode_b58decode _ _ Hdec2) in Hs.
  now rewrite !string_of_list_byte_of_string in Hs.
Qed.

Lemma p2p_to_bytes_injective_witness :
  Py.str_rstrip "BzFRgmr" = Py.str_rstrip "BzFRgmr ".
Proof.
  apply (p2p_to_bytes_injective Protocols.p2p Protocols.ip4 "BzFRgmr" "BzFRgmr "
           [x05; x61; x62; x63; x64; x65]); reflexivity.
Defined.

(** X7. Encoding what [to_string] returned puts the bytes in canonical
    form: whatever the spelling of the length prefix was, [to_bytes] gives
    the varint of the length followed by the payload, as soon as the
    payload has five bytes. *)
Theorem p2p_reencode_canonical
    (proto proto' : Protocol) (buf : list byte) (s : string) (size : N) (n : nat) :
  P2P.to_string proto buf = Ok s ->
  read_varint_code buf = Ok (size, n) ->
  5 <= size ->
  P2P.to_bytes proto' s = Ok (Varint.encode size ++ skipn n buf).
Proof.
  intros Hs Hread Hsize. apply p2p_to_string_inv in Hs.
  destruct Hs as (size' & n' & Hread' & Hlen & ->).
  rewrite Hread in Hread'. injection Hread' as <- <-.
  unfold P2P.to_bytes. rewrite b58decode_b58encode, Hlen.
  destruct (N.ltb_spec size 5) as [|_]; [lia | reflexivity].
Qed.

Lemma p2p_reencode_canonical_witness :
  P2P.to_bytes Protocols.p2p "BzFRgmr"
  = Ok (Varint.encode 5 ++ skipn 2 [x85; x00; x61; x62; x63; x64; x65]).
Proof.
  apply (p2p_reencode_canonical Protocols.p2p Protocols.p2p
           [x85; x00; x61; x62; x63; x64; x65] "BzFRgmr" 5 2%nat);
    [reflexivity | reflexivity | lia].
Defined.

(** X8. The string that [to_string] returns determines the payload: two
    buffers with the same string have the same bytes behind their length
    prefixes. *)
Theorem p2p_to_string_determines_payload
    (p1 p2 : Protocol) (b1 b2 : list byte) (s : string)
    (z1 z2 : N) (n1 n2 : nat) :
  P2P.to_string p1 b1 = Ok s ->
  P2P.to_string p2 b2 = Ok s ->
  read_varint_code b1 = Ok (z1, n1) ->
  read_varint_code b2 = Ok (z2, n2) ->
  skipn n1 b1 = skipn n2 b2 /\ z1 = z2.
Proof.
  intros H1 H2 R1 R2.
  apply p2p_to_string_inv in H1. destruct H1 as (z1' & n1' & R1' & L1 & E1).
  apply p2p_to_string_inv in H2. destruct H2 as (z2' & n2' & R2' & L2 & E2).
  rewrite R1 in R1'. injection R1' as <- <-.
  rewrite R2 in R2'. injection R2' as <- <-.
  assert (Hp : skipn n1 b1 = skipn n2 b2).
  { pose proof (b58decode_b58encode (skipn n1 b1)) as D1.
    rewrite <- E1, E2, b58decode_b58encode in D1. now injection D1 as <-. }
  split; [exact Hp|]. now rewrite <- L1, <- L2, Hp.
Qed.

Lemma p2p_to_string_determines_payload_witness :
  skipn 2 [x85; x00; x61; x62; x63; x64; x65]
  = skipn 1 [x05; x61; x62; x63; x64; x65]
  /\ 5 = 5.
Proof.
  apply (p2p_to_string_determines_payload Protocols.p2p Protocols.p2p
           [x85; x00; x61; x62; x63; x64; x65] [x05; x61; x62; x63; x64; x65]
           "BzFRgmr"); reflexivity.
Defined.

(** X9. Encoding, decoding and encoding again gives the bytes of the first
    encoding, whatever the string that was accepted. *)
Theorem p2p_encode_decode_encode
    (proto : Protocol) (s : string) (buf : list byte) :
  P2P.to_bytes proto s = Ok buf ->
  exists s',
    P2P.to_string proto buf = Ok s' /\ P2P.to_bytes proto s' = Ok buf.
Proof.
  intros H. apply p2p_to_bytes_inv in H. destruct H as (mm & _ & Hlen & ->).
  eexists. split; [apply p2p_to_string_encoded|].
  unfold P2P.to_bytes. rewrite b58decode_b58encode.
  destruct (N.ltb_spec (len mm) 5) as [|_]; [lia | reflexivity].
Qed.

Lemma p2p_encode_decode_encode_witness :
  exists s',
    P2P.to_string Protocols.p2p [x05; x61; x62; x63; x64; x65] = Ok s'
    /\ P2P.to_bytes Protocols.p2p s' = Ok [x05; x61; x62; x63; x64; x65].
Proof.
  apply (p2p_encode_decode_encode Protocols.p2p "BzFRgmr "). reflexivity.
Defined.

(** X10. [to_string] takes one encoded value and nothing else: the bytes
    that [to_bytes] returned are rejected, for their inconsistent lengths,
    once bytes are put behind them or the last byte is taken away. *)
Theorem p2p_to_string_takes_exactly_one
    (proto proto' : Protocol) (s : string) (buf : list byte) :
  P2P.to_bytes proto s = Ok buf ->
  (forall more,
      more <> [] ->
      P2P.to_string proto' (buf ++ more) = Err (ValueError "inconsistent lengths"))
  /\ P2P.to_string proto' (removelast buf)
     = Err (ValueError "inconsistent lengths").
Proof.
  intros H. apply p2p_to_bytes_inv in H. destruct H as (mm & _ & Hlen & ->).
  assert (Hbad : forall mm',
    len mm' <> len mm ->
    P2P.to_string proto' (Varint.encode (len mm) ++ mm')
    = Err (ValueError "inconsistent lengths")).
  { intros mm' Hne. unfold P2P.to_string.
    rewrite read_varint_code_encode. cbn [bind].
    rewrite skipn_length_app.
    destruct (N.eqb_spec (len mm') (len mm)); [contradiction | reflexivity]. }
  split.
  - intros more Hmore. rewrite <- app_assoc. apply Hbad.
    rewrite len_app. destruct more; [contradiction|]. unfold len. cbn. lia.
  - assert (Hmm : mm <> []).
    { intros ->. unfold len in Hlen. cbn in Hlen. lia. }
    rewrite removelast_app by exact Hmm. apply Hbad.
    destruct (exists_last Hmm) as (mm' & b & ->).
    rewrite removelast_last, len_app. unfold len. cbn. lia.
Qed.

Lemma p2p_to_string_takes_exactly_one_witness :
  P2P.to_string Protocols.p2p ([x05; x61; x62; x63; x64; x65] ++ [x00])
  = Err (ValueError "inconsistent lengths")
  /\ P2P.to_string Protocols.p2p (removelast [x05; x61; x62; x63; x64; x65])
     = Err (ValueError "inconsistent lengths").
Proof.
  destruct (p2p_to_string_takes_exactly_one Protocols.p2p Protocols.p2p
              "BzFRgmr" [x05; x61; x62; x63; x64; x65] eq_refl) as [Hmore Hless].
  split; [apply Hmore; discriminate | exact Hless].
Defined.

(** ** The length prefix *)

Lemma encode_loop_small (fuel : nat) (n : N) :
  n < 128 -> Varint.encode_loop fuel n = [byte_of_N n].
Proof.
  intros Hn.
  assert (Hz : N.shiftr n 7 = 0).
  { rewrite N.shiftr_div_pow2. now apply N.div_small. }
  destruct fuel; cbn [Varint.encode_loop]; rewrite Hz; cbn [N.eqb negb];
    now rewrite low7_is_mod, N.mod_small.
Qed.

Lemma encode_loop_large (fuel : nat) (n : N) :
  128 <= n ->
  Varint.encode_loop (S fuel) n
  = byte_of_N (n mod 128 + 128) :: Varint.encode_loop fuel (n / 128).
Proof.
  intros Hn. cbn [Varint.encode_loop].
  rewrite N.shiftr_div_pow2. change (2 ^ 7) with 128.
  destruct (N.eqb_spec (n / 128) 0) as [Hz|_].
  - apply N.div_small_iff in Hz; [lia | discriminate].
  - cbn [negb]. now rewrite low7_plus_flag.
Qed.

Lemma encode_loop_shape (fuel : nat) :
  forall n,
    n < 2 ^ (7 * N.of_nat (S fuel)) ->
    (exists init last,
        Varint.encode_loop fuel n = init ++ [last]
        /\ forallb continues init = true
        /\ continues last = false)
    /\ varint_value (Varint.encode_loop fuel n) = n.
Proof.
  induction fuel as [|fuel IH]; intros n Hn.
  - assert (Hsmall : n < 128) by (cbn in Hn; lia).
    rewrite encode_loop_small by exact Hsmall. split.
    + exists [], (byte_of_N n). repeat split.
      unfold continues. rewrite to_N_byte_of_N by lia.
      now apply N.leb_gt.
    + cbn. rewrite to_N_byte_of_N by lia. rewrite N.mod_small by exact Hsmall.
      lia.
  - destruct (N.lt_ge_cases n 128) as [Hsmall|Hlarge].
    + rewrite encode_loop_small by exact Hsmall. split.
      * exists [], (byte_of_N n). repeat split.
        unfold continues. rewrite to_N_byte_of_N by lia.
        now apply N.leb_gt.
      * cbn. rewrite to_N_byte_of_N by lia.
        rewrite N.mod_small by exact Hsmall. lia.
    + rewrite encode_loop_large by exact Hlarge.
      assert (Hq : n / 128 < 2 ^ (7 * N.of_nat (S fuel))).
      { apply N.Div0.div_lt_upper_bound. change 128 with (2 ^ 7).
        rewrite <- N.pow_add_r.
        replace (7 + 7 * N.of_nat (S fuel)) with (7 * N.of_nat (S (S fuel))) by lia.
        exact Hn. }
      destruct (IH _ Hq) as [(init & last & Heq & Hinit & Hlast) Hval].
      assert (Hm : n mod 128 < 128) by (apply N.mod_lt; discriminate).
      assert (Hb : Byte.to_N (byte_of_N (n mod 128 + 128)) = n mod 128 + 128).
      { apply to_N_byte_of_N. revert Hm. generalize (n mod 128). intros; lia. }
      split.
      * exists (byte_of_N (n mod 128 + 128) :: init), last.
        rewrite Heq. split; [reflexivity|]. split; [|exact Hlast].
        cbn [forallb]. rewrite Hinit, andb_true_r.
        unfold continues. rewrite Hb. apply N.leb_le.
        revert Hm. generalize (n mod 128). intros; lia.
      * cbn [varint_value fold_right]. fold (varint_value (Varint.encode_loop fuel (n / 128))).
        rewrite Hval, Hb.
        replace ((n mod 128 + 128) mod 128) with (n mod 128).
        2:{ apply N.mod_unique with 1; [exact Hm|].
            revert Hm. generalize (n mod 128). intros; lia. }
        rewrite N.add_comm. symmetry. apply N.div_mod. discriminate.
Qed.

Lemma encode_fuel_bound (n : N) :
  n < 2 ^ (7 * N.of_nat (S (N.to_nat (N.log2 n)))).
Proof.
  eapply N.lt_le_trans; [apply lt_pow2_succ_log2|].
  apply N.pow_le_mono_r; [discriminate | lia].
Qed.

(** X11. [varint.encode], as [to_bytes] calls it for the length: the bytes
    it returns are never empty, every byte but the last has the
    continuation bit and the last has not, and the groups of seven bits,
    the low ones first, make up the number. *)
Theorem varint_encode_shape (n : N) :
  (exists init last,
      Varint.encode n = init ++ [last]
      /\ forallb continues init = true
      /\ continues last = false)
  /\ varint_value (Varint.encode n) = n.
Proof. apply encode_loop_shape, encode_fuel_bound. Qed.

(** X12. A string of fewer than 128 characters that [to_bytes] accepts is
    encoded with a length prefix of one byte, which holds the number of
    bytes that follow it. *)
Theorem p2p_single_byte_prefix (proto : Protocol) (s : string) (buf : list byte) :
  P2P.to_bytes proto s = Ok buf ->
  (String.length s < 128)%nat ->
  exists b mm, buf = b :: mm /\ Byte.to_N b = len mm.
Proof.
  intros H Hs. apply p2p_to_bytes_inv in H. destruct H as (mm & Hdec & _ & ->).
  destruct (b58decode_length s mm Hdec) as [Hle _].
  pose proof (length_text_of s) as Ht.
  assert (Hlen : len mm < 128) by (unfold len; lia).
  exists (byte_of_N (len mm)), mm. split.
  - unfold Varint.encode. now rewrite encode_loop_small.
  - apply to_N_byte_of_N. lia.
Qed.

Lemma p2p_single_byte_prefix_witness :
  exists b mm, [x05; x61; x62; x63; x64; x65] = b :: mm /\ Byte.to_N b = len mm.
Proof.
  apply (p2p_single_byte_prefix Protocols.p2p "BzFRgmr");
    [reflexivity | vm_compute; lia].
Defined.

(** X13. A string with fewer than five characters before the whitespace at
    its end, the empty string among them, is rejected by [to_bytes]. *)
Theorem p2p_to_bytes_rejects_short_text (proto : Protocol) (s : string) :
  (List.length (text_of s) < 5)%nat ->
  exists msg, P2P.to_bytes proto s = Err (ValueError msg).
Proof.
  intros Hs. unfold P2P.to_bytes.
  destruct (Base58.b58decode s) as [mm|e] eqn:Hdec; [|now eexists].
  destruct (b58decode_length s mm Hdec) as [Hle _].
  destruct (N.ltb_spec (len mm) 5) as [_|Hge]; [now eexists|].
  unfold len in Hge. lia.
Qed.

Lemma p2p_to_bytes_rejects_short_text_witness :
  exists msg, P2P.to_bytes Protocols.p2p "" = Err (ValueError msg).
Proof.
  apply (p2p_to_bytes_rejects_short_text Protocols.p2p ""). vm_compute. lia.
Defined.

(** X14. [to_string] has no least length: it accepts the varint of its
    length followed by any payload, the empty one too, and the string it
    returns is decoded by [b58decode] to that payload. *)
Theorem p2p_to_string_accepts_any_payload (proto : Protocol) (mm : list byte) :
  exists s,
    P2P.to_string proto (Varint.encode (len mm) ++ mm) = Ok s
    /\ Base58.b58decode s = Ok mm.
Proof.
  eexists. split; [apply p2p_to_string_encoded | apply b58decode_b58encode].
Qed.

(** X15. [to_bytes] turns the ones at the head of the text into as many
    zero bytes at the head of the payload: the text is [k] ones and a rest
    that starts with no one, the payload [k] zero bytes and a rest that
    starts with no zero byte. *)
Theorem p2p_leading_ones_become_zeros
    (proto : Protocol) (s : string) (buf : list byte) :
  P2P.to_bytes proto s = Ok buf ->
  exists (k : nat) (rest mm : list byte),
    text_of s = repeat x31 k ++ rest
    /\ unstrippable is_one_byte rest
    /\ buf = Varint.encode (len (repeat x00 k ++ mm)) ++ repeat x00 k ++ mm
    /\ unstrippable is_zero_byte mm.
Proof.
  intros H. apply p2p_to_bytes_inv in H. destruct H as (mm & Hdec & _ & ->).
  destruct (b58decode_shape s) as (k & rest & Hsplit & Hone & Heq).
  rewrite Heq in Hdec.
  destruct (Py.str_encode_ascii (Py.str_rstrip s)); [|discriminate].
  cbn [bind] in Hdec.
  destruct (Base58.b58decode_int_loop rest 0) as [acc|]; [|discriminate].
  cbn [bind] in Hdec. injection Hdec as <-.
  exists k, rest, (rev (Py.int_to_bytes_little (byte_length acc) acc)).
  repeat split; try assumption. apply int_to_bytes_canonical.
Qed.

Lemma p2p_leading_ones_become_zeros_witness :
  exists (k : nat) (rest mm : list byte),
    text_of "11BzFRgmr" = repeat x31 k ++ rest
    /\ unstrippable is_one_byte rest
    /\ [x07; x00; x00; x61; x62; x63; x64; x65]
       = Varint.encode (len (repeat x00 k ++ mm)) ++ repeat x00 k ++ mm
    /\ unstrippable is_zero_byte mm.
Proof.
  apply (p2p_leading_ones_become_zeros Protocols.p2p "11BzFRgmr").
  reflexivity.
Defined.
